(** * The settings store of [app/settings.go]

    A shallow embedding of the process-wide settings store: the persisted
    schema, the store with its read/write lock, the change-listener
    registry with its channels, and the theme set-up.  Methods of
    [*settings] are computations in a small monad over the state of the
    running program ([World]); a computation either finishes, parks the
    calling goroutine on the lock, or dies on a runtime fatal error. *)

From Stdlib Require Import Floats.SpecFloat.
From stdpp Require Import gmap strings list fin_maps.

Open Scope string_scope.
Open Scope list_scope.

Set Default Proof Using "Type".

(** ** Go values *)

(** [float32]: IEEE 754 binary32 ([prec = 24], [emax = 128]); comparisons
    are the IEEE ones, so a NaN is neither below nor above anything. *)
Definition float32 : Type := spec_float.
Definition float32_valid (x : float32) : bool := valid_binary 24 128 x.

(** The literals [0.0] and [1.0]. *)
Definition f32_0 : float32 := S754_zero false.
Definition f32_1 : float32 := S754_finite false 8388608 (-23).
(** The legacy "auto" value [-1]. *)
Definition f32_m1 : float32 := S754_finite true 8388608 (-23).

(** [fyne.ThemeVariant] is a [uint]. *)
Definition fyne_ThemeVariant : Type := N.

(** A [chan fyne.Settings] value is the address of a channel object. *)
Definition chan : Type := nat.

(** The only value this file ever sends: the store itself, as a
    [fyne.Settings]. *)
Inductive fyne_Settings : Type := settings_ref.

(** A channel object: capacity, the queued values, how many receivers are
    parked on it, and what has been handed to receivers already.  Channels
    are open: nothing in this file closes one. *)
Record channel : Type := mkChannel {
  cap : nat;
  buf : list fyne_Settings;
  recvq : nat;
  received : list fyne_Settings
}.

(** [sync.RWMutex]: free, held by [n + 1] readers, or held by a writer. *)
Inductive RWMutex : Type :=
| Unlocked
| RLocked (n : nat)
| WLocked.

(** ** The monad

    A computation over a state [W] finishes with a value, parks the calling
    goroutine for good ([Blocked]: in a sequential run nobody else will
    release what it waits for), or stops the process on a runtime fatal
    error. *)

Inductive outcome (W A : Type) : Type :=
| Done (a : A) (w : W)
| Blocked (w : W)
| Fatal (msg : string) (w : W).
Arguments Done {W A} a w.
Arguments Blocked {W A} w.
Arguments Fatal {W A} msg w.

Definition M (W A : Type) : Type := W -> outcome W A.

Definition ret {W A} (a : A) : M W A := fun w => Done a w.

Definition bind {W A B} (m : M W A) (k : A -> M W B) : M W B :=
  fun w =>
    match m w with
    | Done a w' => k a w'
    | Blocked w' => Blocked w'
    | Fatal msg w' => Fatal msg w'
    end.

Definition gets {W A} (f : W -> A) : M W A := fun w => Done (f w) w.
Definition modify {W} (f : W -> W) : M W unit := fun w => Done tt (f w).

(** [defer cleanup] in front of [body]: the deferred call runs when the
    body returns, and the body's result is the function's. *)
Definition defer {W A} (cleanup : M W unit) (body : M W A) : M W A :=
  bind body (fun r => bind cleanup (fun _ => ret r)).

Declare Scope go_scope.
Delimit Scope go_scope with go.
Notation "x <- m ;; k" := (bind m (fun x => k))
  (at level 100, m at next level, right associativity) : go_scope.
Notation "m ;; k" := (bind m (fun _ => k))
  (at level 100, right associativity) : go_scope.

(** ** The schema *)

Module SettingsSchema.

Record t : Type := mk {
  ThemeName : string;
  Scale : float32;
  PrimaryColor : string;
  CloudName : string;
  CloudConfig : string;
  DisableAnimations : bool
}.

Definition set_PrimaryColor (name : string) (sc : t) : t :=
  {| ThemeName := ThemeName sc; Scale := Scale sc; PrimaryColor := name;
     CloudName := CloudName sc; CloudConfig := CloudConfig sc;
     DisableAnimations := DisableAnimations sc |}.

(** The zero value of the struct. *)
Definition zero : t :=
  {| ThemeName := ""; Scale := f32_0; PrimaryColor := ""; CloudName := "";
     CloudConfig := ""; DisableAnimations := false |}.

End SettingsSchema.

(** ** Sample collaborators

    A stand-in for each collaborator of another package, for running the
    methods on sample states: themes are numbered, errors are their
    messages. *)

Definition sample_IsNotExist (err : string) : bool :=
  String.eqb err "no such file or directory".

Definition sample_Join (dir file : string) : string :=
  (dir ++ "/" ++ file)%string.

(** Theme 0 is the built-in one. *)
Definition sample_DefaultTheme : option nat := Some 0.

(** An empty document does not parse; any other is theme 1. *)
Definition sample_FromJSONReader (content : list Byte.byte)
  : option nat * option string :=
  match content with
  | [] => (None, Some "unexpected end of JSON input")
  | _ :: _ => (Some 1, None)
  end.

Definition sample_VariantDark : fyne_ThemeVariant := 0%N.
Definition sample_VariantLight : fyne_ThemeVariant := 1%N.

Section Store.

(** Implementations of the [fyne.Theme] interface, opaque up to identity;
    the interface value itself may be nil. *)
Context {theme_impl : Type}.
Definition fyne_Theme : Type := option theme_impl.

(** Go's [error] values, with [os.IsNotExist]. *)
Context {error : Type}.
Variable os_IsNotExist : error -> bool.

(** Collaborators of other packages. *)
Variable app_RootConfigDir : string.
Variable filepath_Join : string -> string -> string.
Variable theme_DefaultTheme : fyne_Theme.
Variable theme_FromJSONReader : list Byte.byte -> fyne_Theme * option error.
Variable theme_VariantLight theme_VariantDark : fyne_ThemeVariant.
Variable build_Mode : nat.

(** [var noAnimations bool], fixed at compile time by the build tag. *)
Variable noAnimations : bool.

(** A [fyne.Resource]: its name and content (a nil slice is [None]). *)
Record Resource : Type := mkResource {
  Name : string;
  Content : option (list Byte.byte)
}.

(** ** The store *)

Record settings : Type := mkSettings {
  propertyLock : RWMutex;
  theme : fyne_Theme;
  themeSpecified : bool;
  variant : fyne_ThemeVariant;
  changeListeners : gmap chan bool;
  watcher : option nat;
  schema : SettingsSchema.t
}.

Definition set_propertyLock (l : RWMutex) (s : settings) : settings :=
  mkSettings l (theme s) (themeSpecified s) (variant s) (changeListeners s)
    (watcher s) (schema s).
Definition set_theme (t : fyne_Theme) (s : settings) : settings :=
  mkSettings (propertyLock s) t (themeSpecified s) (variant s)
    (changeListeners s) (watcher s) (schema s).
Definition set_themeSpecified (b : bool) (s : settings) : settings :=
  mkSettings (propertyLock s) (theme s) b (variant s) (changeListeners s)
    (watcher s) (schema s).
Definition set_variant (v : fyne_ThemeVariant) (s : settings) : settings :=
  mkSettings (propertyLock s) (theme s) (themeSpecified s) v
    (changeListeners s) (watcher s) (schema s).
Definition set_changeListeners (m : gmap chan bool) (s : settings) : settings :=
  mkSettings (propertyLock s) (theme s) (themeSpecified s) (variant s) m
    (watcher s) (schema s).
Definition set_schema (sc : SettingsSchema.t) (s : settings) : settings :=
  mkSettings (propertyLock s) (theme s) (themeSpecified s) (variant s)
    (changeListeners s) (watcher s) sc.

(** [&settings{}] *)
Definition zero_settings : settings :=
  mkSettings Unlocked None false 0%N ∅ None SettingsSchema.zero.

(** ** The running program *)

(** What the host offers and may change behind the program's back. *)
Record Host : Type := mkHost {
  environ : string -> option string;
  files : string -> option Resource * option error;
  settingsFile : SettingsSchema.t;
  defaultVariant : fyne_ThemeVariant
}.

(** The state of the running program: the store behind every non-nil
    [*settings]; the channel objects; the goroutines started by the
    fan-out, each named by the channel it sends on; what [fyne.LogError]
    has been given; the number of channel operations the calling goroutine
    has made, which is the clock of the fan-out; and the host. *)
Record World : Type := mkWorld {
  store : settings;
  chans : gmap chan channel;
  goroutines : list chan;
  log : list (string * option error);
  ticks : nat;
  host : Host
}.

Definition set_store (s : settings) (w : World) : World :=
  mkWorld s (chans w) (goroutines w) (log w) (ticks w) (host w).
Definition set_chans (m : gmap chan channel) (w : World) : World :=
  mkWorld (store w) m (goroutines w) (log w) (ticks w) (host w).
Definition set_goroutines (g : list chan) (w : World) : World :=
  mkWorld (store w) (chans w) g (log w) (ticks w) (host w).
Definition set_log (l : list (string * option error)) (w : World) : World :=
  mkWorld (store w) (chans w) (goroutines w) l (ticks w) (host w).
Definition set_ticks (n : nat) (w : World) : World :=
  mkWorld (store w) (chans w) (goroutines w) (log w) n (host w).

Local Open Scope go_scope.

Definition Go (A : Type) : Type := M World A.

Definition modify_store (f : settings -> settings) : Go unit :=
  modify (fun w => set_store (f (store w)) w).

(** *** [sync.RWMutex] on [s.propertyLock] *)

Definition Lock : Go unit := fun w =>
  match propertyLock (store w) with
  | Unlocked => Done tt (set_store (set_propertyLock WLocked (store w)) w)
  | _ => Blocked w
  end.

Definition Unlock : Go unit := fun w =>
  match propertyLock (store w) with
  | WLocked => Done tt (set_store (set_propertyLock Unlocked (store w)) w)
  | _ => Fatal "sync: Unlock of unlocked RWMutex" w
  end.

Definition RLock : Go unit := fun w =>
  match propertyLock (store w) with
  | Unlocked => Done tt (set_store (set_propertyLock (RLocked 0) (store w)) w)
  | RLocked n => Done tt (set_store (set_propertyLock (RLocked (S n)) (store w)) w)
  | WLocked => Blocked w
  end.

Definition RUnlock : Go unit := fun w =>
  match propertyLock (store w) with
  | RLocked 0 => Done tt (set_store (set_propertyLock Unlocked (store w)) w)
  | RLocked (S n) => Done tt (set_store (set_propertyLock (RLocked n) (store w)) w)
  | _ => Fatal "sync: RUnlock of unlocked RWMutex" w
  end.

(** *** Collaborators with effects *)

(** [fyne.LogError(msg, err)] *)
Definition fyne_LogError (msg : string) (err : option error) : Go unit :=
  modify (fun w => set_log (log w ++ [(msg, err)]) w).

(** [os.Getenv]: the empty string when the variable is not set. *)
Definition os_Getenv (key : string) : Go string :=
  gets (fun w => default "" (environ (host w) key)).

(** [fyne.LoadResourceFromPath] *)
Definition fyne_LoadResourceFromPath (path : string)
  : Go (option Resource * option error) :=
  gets (fun w => files (host w) path).

(** [app.DefaultVariant()] *)
Definition app_DefaultVariant : Go fyne_ThemeVariant :=
  gets (fun w => defaultVariant (host w)).

(** *** Channels *)

(** Can a send proceed at once: a receiver is parked on the channel, or
    the buffer has room. *)
Definition ready (ch : channel) : bool :=
  ((0 <? recvq ch) || (length (buf ch) <? cap ch))%nat.

(** The channel after a send that proceeded: the value goes to a parked
    receiver if there is one, to the buffer otherwise. *)
Definition deliver (v : fyne_Settings) (ch : channel) : channel :=
  if (0 <? recvq ch)%nat
  then mkChannel (cap ch) (buf ch) (pred (recvq ch)) (received ch ++ [v])
  else mkChannel (cap ch) (buf ch ++ [v]) (recvq ch) (received ch).

(** [select { case c <- v: default: }]: reports whether the send was done.
    A nil channel (no object behind [c]) is never ready.  One tick of the
    calling goroutine's clock. *)
Definition select_send (c : chan) (v : fyne_Settings) : Go bool := fun w =>
  let w1 := set_ticks (S (ticks w)) w in
  match chans w !! c with
  | Some ch =>
      if ready ch
      then Done true (set_chans (<[c := deliver v ch]> (chans w)) w1)
      else Done false w1
  | None => Done false w1
  end.

(** [go func() { c <- s }()]: a new goroutine that will send on [c]. *)
Definition go_send (c : chan) : Go unit :=
  modify (fun w => set_goroutines (goroutines w ++ [c]) w).

(** [sync.Map.Range]: calls [f] on each key in turn, stops when [f]
    returns false. *)
Fixpoint Range_keys (ks : list chan) (f : chan -> Go bool) : Go unit :=
  match ks with
  | [] => ret tt
  | k :: ks' => continue <- f k ;;
                if continue : bool then Range_keys ks' f else ret tt
  end.

Definition Range (f : chan -> Go bool) : Go unit :=
  ks <- gets (fun w => (map_to_list (changeListeners (store w))).*1) ;;
  Range_keys ks f.

(** ** The methods of [*settings] *)

(** A [*settings] receiver: nil, or the address of the store. *)
Inductive settings_ptr : Type := nil_ptr | store_ptr.

(** settings.go:29 *)
Definition StoragePath : string :=
  filepath_Join app_RootConfigDir "settings.json".

(** settings.go:48 *)
Definition BuildType : Go nat := ret build_Mode.

(** settings.go:52 *)
Definition PrimaryColor : Go string :=
  RLock ;;
  defer RUnlock
    (gets (fun w => SettingsSchema.PrimaryColor (schema (store w)))).

(** settings.go:62 *)
Definition OverrideTheme (th : fyne_Theme) (name : string) : Go unit :=
  Lock ;;
  defer Unlock
    (modify_store (fun s =>
       set_schema (SettingsSchema.set_PrimaryColor name (schema s)) s) ;;
     modify_store (set_theme th)).

(** settings.go:69 *)
Definition Theme (s : settings_ptr) : Go fyne_Theme :=
  match s with
  | nil_ptr =>
      fyne_LogError
        "Attempt to access current Fyne theme when no app is started" None ;;
      ret None
  | store_ptr =>
      RLock ;;
      defer RUnlock (gets (fun w => theme (store w)))
  end.

(** settings.go:84 *)
Definition ShowAnimations : Go bool :=
  gets (fun w =>
    negb (SettingsSchema.DisableAnimations (schema (store w)))
    && negb noAnimations).

(** settings.go:88 *)
Definition ThemeVariant : Go fyne_ThemeVariant :=
  gets (fun w => variant (store w)).

(** settings.go:107 *)
Definition Scale : Go float32 :=
  RLock ;;
  defer RUnlock
    (v <- gets (fun w => SettingsSchema.Scale (schema (store w))) ;;
     if SFltb v f32_0 then ret f32_1 else ret v).

(** settings.go:116 *)
Definition AddChangeListener (listener : chan) : Go unit :=
  modify_store (fun s =>
    set_changeListeners (<[listener := true]> (changeListeners s)) s).

(** settings.go:120: a non-blocking send to each listener, and where that
    falls to [default], a goroutine to do the blocking send. *)
Definition apply : Go unit :=
  Range (fun listener =>
    sent <- select_send listener settings_ref ;;
    (if sent : bool then ret tt else go_send listener) ;;
    ret true).

(** settings.go:92 *)
Definition applyTheme (th : fyne_Theme) (v : fyne_ThemeVariant) : Go unit :=
  Lock ;;
  defer Unlock
    (modify_store (set_variant v) ;;
     modify_store (set_theme th) ;;
     apply).

(** settings.go:100 *)
Definition applyVariant (v : fyne_ThemeVariant) : Go unit :=
  Lock ;;
  defer Unlock
    (modify_store (set_variant v) ;;
     apply).

(** settings.go:79 *)
Definition SetTheme (th : fyne_Theme) : Go unit :=
  modify_store (set_themeSpecified true) ;;
  v <- gets (fun w => variant (store w)) ;;
  applyTheme th v.

(** Modelled from the spec: [load], the method that re-reads the persisted
    settings document; its body is not in this file.  The persistence
    collaborator hands over the schema of the document, and the store's
    schema is replaced by it under the write lock; nothing else of the
    store is touched, theme resolution is not re-run. *)
Definition load : Go unit :=
  sc <- gets (fun w => settingsFile (host w)) ;;
  Lock ;;
  defer Unlock (modify_store (set_schema sc)).

(** settings.go:133 *)
Definition fileChanged : Go unit :=
  load ;;
  apply.

(** settings.go:138 *)
Definition loadSystemTheme : Go fyne_Theme :=
  let path := filepath_Join app_RootConfigDir "theme.json" in
  r <- fyne_LoadResourceFromPath path ;;
  let '(data, err) := r in
  match err with
  | Some err =>
      (if negb (os_IsNotExist err)
       then fyne_LogError ("Failed to load user theme file: " ++ path)%string
              (Some err)
       else ret tt) ;;
      ret theme_DefaultTheme
  | None =>
      match data with
      | Some (mkResource _ (Some content)) =>
          let '(th, err) := theme_FromJSONReader content in
          match err with
          | None => ret th
          | Some err =>
              fyne_LogError
                ("Failed to parse user theme file: " ++ path)%string
                (Some err) ;;
              ret theme_DefaultTheme
          end
      | _ => ret theme_DefaultTheme
      end
  end.

(** settings.go:157 *)
Definition setupTheme : Go unit :=
  name <- gets (fun w => SettingsSchema.ThemeName (schema (store w))) ;;
  env <- os_Getenv "FYNE_THEME" ;;
  let name := if negb (String.eqb env "") then env else name in
  variant <- app_DefaultVariant ;;
  effectiveTheme <- gets (fun w => theme (store w)) ;;
  specified <- gets (fun w => themeSpecified (store w)) ;;
  effectiveTheme <-
    (if negb specified then loadSystemTheme else ret effectiveTheme) ;;
  let variant :=
    if String.eqb name "light" then theme_VariantLight
    else if String.eqb name "dark" then theme_VariantDark
    else variant in
  applyTheme effectiveTheme variant.

(** settings.go:178: the new store takes the place of the one in the
    state. *)
Definition loadSettings : Go settings_ptr :=
  modify (set_store zero_settings) ;;
  load ;;
  ret store_ptr.

(** ** Vocabulary of the statements *)

(** The registered channels, in the order [Range] visits them. *)
Definition listeners (w : World) : list chan :=
  (map_to_list (changeListeners (store w))).*1.

(** Would a send on [c] proceed at once in [w]. *)
Definition sendable (w : World) (c : chan) : bool :=
  match chans w !! c with
  | Some ch => ready ch
  | None => false
  end.

(** The goroutines parked (or about to park) on a send to [c]. *)
Definition pending (c : chan) (w : World) : nat :=
  count_occ Nat.eq_dec (goroutines w) c.

(** What one pass of the fan-out leaves at a registered channel [c]: the
    store reference is in the channel (handed to a receiver or queued) and
    no goroutine was started, or the channel is as it was and exactly one
    more goroutine waits to send on it. *)
Definition notified (c : chan) (w w' : World) : Prop :=
  if sendable w c
  then (exists ch, chans w !! c = Some ch /\
                   chans w' !! c = Some (deliver settings_ref ch)) /\
       pending c w' = pending c w
  else chans w' !! c = chans w !! c /\ pending c w' = S (pending c w).

(** One call of the callback that [apply] hands to [Range]. *)
Definition notify_one (w : World) (c : chan) : World :=
  let w1 := set_ticks (S (ticks w)) w in
  match chans w !! c with
  | Some ch =>
      if ready ch
      then set_chans (<[c := deliver settings_ref ch]> (chans w)) w1
      else set_goroutines (goroutines w1 ++ [c]) w1
  | None => set_goroutines (goroutines w1 ++ [c]) w1
  end.

(** What may happen to a store after a theme was set: the host changes
    (the documents on disk, the environment, the system variant), other
    goroutines receive from the channels or finish their sends, a
    listener is added, the watcher reports a change of the settings
    document, set-up is run again, or some goroutine reads the theme. *)
Inductive later_event : Type :=
| HostChanges (h : Host)
| OthersRun (cs : gmap chan channel) (gs : list chan)
| ListenerAdded (c : chan)
| FileChanged
| SetupAgain
| ThemeRead.

Definition run_event (e : later_event) : Go unit :=
  match e with
  | HostChanges h =>
      modify (fun w =>
        mkWorld (store w) (chans w) (goroutines w) (log w) (ticks w) h)
  | OthersRun cs gs => modify (fun w => set_goroutines gs (set_chans cs w))
  | ListenerAdded c => AddChangeListener c
  | FileChanged => fileChanged
  | SetupAgain => setupTheme
  | ThemeRead => Theme store_ptr ;; ret tt
  end.

Fixpoint run_events (es : list later_event) : Go unit :=
  match es with
  | [] => ret tt
  | e :: es' => run_event e ;; run_events es'
  end.

(** One pass of the fan-out from [w] to [w']: one channel operation per
    registered channel, each registered channel notified, every other
    channel left alone. *)
Definition fanned_out (w w' : World) : Prop :=
  ticks w' = ticks w + size (changeListeners (store w)) /\
  (forall c, is_Some (changeListeners (store w) !! c) -> notified c w w') /\
  (forall c, changeListeners (store w) !! c = None ->
             chans w' !! c = chans w !! c /\ pending c w' = pending c w).

(** The theme name set-up goes by: the persisted one, unless the
    environment overrides it. *)
Definition candidate_name (w : World) : string :=
  let env := default "" (environ (host w) "FYNE_THEME") in
  if negb (String.eqb env "") then env
  else SettingsSchema.ThemeName (schema (store w)).

(** The variant a name stands for, [dflt] when it stands for none. *)
Definition variant_of_name (name : string) (dflt : fyne_ThemeVariant)
  : fyne_ThemeVariant :=
  if String.eqb name "light" then theme_VariantLight
  else if String.eqb name "dark" then theme_VariantDark
  else dflt.

(** A store on which a caller has set the theme [th]: the flag is up, the
    theme is [th], and nobody holds the lock. *)
Definition pinned (th : fyne_Theme) (w : World) : Prop :=
  propertyLock (store w) = Unlocked /\
  themeSpecified (store w) = true /\
  theme (store w) = th.

(** ** Sample states *)

(** A host with no environment, no documents and the zero schema. *)
Definition bare_host : Host :=
  mkHost (fun _ => None) (fun _ => (None, None)) SettingsSchema.zero 0%N.

(** A quiet program around a store: no pending goroutine, an empty log. *)
Definition world_of (s : settings) (cs : gmap chan channel) (h : Host)
  : World :=
  mkWorld s cs [] [] 0 h.

(** A store as [&settings{}] leaves it, with the given schema. *)
Definition store_with (sc : SettingsSchema.t) : settings :=
  set_schema sc zero_settings.

Definition schema_with_scale (v : float32) : SettingsSchema.t :=
  SettingsSchema.mk "" v "" "" "" false.

(** An unbuffered channel nobody receives from. *)
Definition undrained : channel := mkChannel 0 [] 0 [].

(** A quiet program whose store holds the schema [sc]. *)
Definition quiet_world (sc : SettingsSchema.t) : World :=
  world_of (store_with sc) ∅ bare_host.

(** A host whose environment sets [FYNE_THEME] to [name]. *)
Definition host_with_FYNE_THEME (name : string) : Host :=
  mkHost (fun key => if String.eqb key "FYNE_THEME" then Some name else None)
    (fun _ => (None, None)) SettingsSchema.zero 0%N.

(** A store with the channels [0 .. n-1] registered, each unbuffered and
    with no receiver. *)
Definition crowd (n : nat) : World :=
  world_of
    (set_changeListeners (gset_to_gmap true (set_seq 0 n)) zero_settings)
    (gset_to_gmap undrained (set_seq 0 n)) bare_host.

(** A host whose theme document reads as [r]. *)
Definition host_with_theme_file (r : option Resource * option error) : Host :=
  mkHost (fun _ => None) (fun _ => r) SettingsSchema.zero 0%N.

(** ** The goroutines of the fan-out, and sequences of calls *)

(** The blocking send [c <- v], the body of the goroutine that [apply]
    starts (settings.go:127): it proceeds when the channel can take the
    value and parks otherwise; a nil channel never can. *)
Definition chan_send (c : chan) (v : fyne_Settings) : Go unit := fun w =>
  match chans w !! c with
  | Some ch =>
      if ready ch
      then Done tt (set_chans (<[c := deliver v ch]> (chans w)) w)
      else Blocked w
  | None => Blocked w
  end.

(** The scheduler lets the [i]-th started goroutine run: its send goes
    through and it exits, or it stays parked and nothing changes. *)
Definition resume (i : nat) (w : World) : World :=
  match goroutines w !! i with
  | Some c =>
      match chan_send c settings_ref w with
      | Done _ w' => set_goroutines (delete i (goroutines w')) w'
      | _ => w
      end
  | None => w
  end.

(** The store references on their way to or at the subscriber of [c]:
    queued in the channel, handed to its receivers, or held by a goroutine
    waiting to send. *)
Definition in_flight (c : chan) (w : World) : nat :=
  match chans w !! c with
  | Some ch => length (buf ch) + length (received ch)
  | None => 0
  end + pending c w.

(** [n] passes of the fan-out in a row. *)
Fixpoint apply_times (n : nat) : Go unit :=
  match n with
  | 0 => ret tt
  | S n' => apply ;; apply_times n'
  end.

(** No channel holds more than its capacity. *)
Definition buffers_within_capacity (w : World) : Prop :=
  forall c ch, chans w !! c = Some ch -> length (buf ch) <= cap ch.

(** The calls a goroutine can make on the store through the methods whose
    bodies are in the file. *)
Inductive call : Type :=
| CallBuildType
| CallPrimaryColor
| CallOverrideTheme (th : fyne_Theme) (name : string)
| CallTheme (s : settings_ptr)
| CallSetTheme (th : fyne_Theme)
| CallShowAnimations
| CallThemeVariant
| CallApplyTheme (th : fyne_Theme) (v : fyne_ThemeVariant)
| CallApplyVariant (v : fyne_ThemeVariant)
| CallScale
| CallAddChangeListener (listener : chan)
| CallApply
| CallLoadSystemTheme
| CallSetupTheme.

Definition run_call (c : call) : Go unit :=
  match c with
  | CallBuildType => BuildType ;; ret tt
  | CallPrimaryColor => PrimaryColor ;; ret tt
  | CallOverrideTheme th name => OverrideTheme th name
  | CallTheme s => Theme s ;; ret tt
  | CallSetTheme th => SetTheme th
  | CallShowAnimations => ShowAnimations ;; ret tt
  | CallThemeVariant => ThemeVariant ;; ret tt
  | CallApplyTheme th v => applyTheme th v
  | CallApplyVariant v => applyVariant v
  | CallScale => Scale ;; ret tt
  | CallAddChangeListener listener => AddChangeListener listener
  | CallApply => apply
  | CallLoadSystemTheme => loadSystemTheme ;; ret tt
  | CallSetupTheme => setupTheme
  end.

(** What happens between the start of a program and any later moment, seen
    from one goroutine that makes its calls one after the other: a call,
    a step of a goroutine of the fan-out, or a change of the host. *)
Inductive action : Type :=
| Calls (c : call)
| GoroutineRuns (i : nat)
| HostBecomes (h : Host).

Definition run_action (a : action) : Go unit :=
  match a with
  | Calls c => run_call c
  | GoroutineRuns i => modify (resume i)
  | HostBecomes h =>
      modify (fun w =>
        mkWorld (store w) (chans w) (goroutines w) (log w) (ticks w) h)
  end.

Fixpoint run_actions (l : list action) : Go unit :=
  match l with
  | [] => ret tt
  | a :: l' => run_action a ;; run_actions l'
  end.

(** Two schemas that differ in [PrimaryColor] at most. *)
Definition same_but_color (sc sc' : SettingsSchema.t) : Prop :=
  SettingsSchema.ThemeName sc' = SettingsSchema.ThemeName sc /\
  SettingsSchema.Scale sc' = SettingsSchema.Scale sc /\
  SettingsSchema.CloudName sc' = SettingsSchema.CloudName sc /\
  SettingsSchema.CloudConfig sc' = SettingsSchema.CloudConfig sc /\
  SettingsSchema.DisableAnimations sc' = SettingsSchema.DisableAnimations sc.

(** What no action does to a store whose lock is free: take the lock for
    good, clear the override flag, drop a listener, touch the watcher, or
    write a schema field other than [PrimaryColor]. *)
Definition store_kept (s s' : settings) : Prop :=
  propertyLock s' = Unlocked /\
  (themeSpecified s = true -> themeSpecified s' = true) /\
  (forall c, is_Some (changeListeners s !! c) ->
             is_Some (changeListeners s' !! c)) /\
  watcher s' = watcher s /\
  same_but_color (schema s) (schema s').

(** A program in which a goroutine of the fan-out waits to send on [c],
    an unbuffered channel on which a receiver is now parked. *)
Definition sender_meets_receiver (c : chan) : World :=
  mkWorld (set_changeListeners {[c := true]} zero_settings)
    {[c := mkChannel 0 [] 1 []]} [c] [] 0 bare_host.

(** A quiet program whose store is held by a writer. *)
Definition world_under_writer : World :=
  world_of (set_propertyLock WLocked zero_settings) ∅ bare_host.

(** A store with one registered channel [c], buffered with room for [n]
    values and with no receiver. *)
Definition one_listener (c : chan) (n : nat) : World :=
  world_of (set_changeListeners {[c := true]} zero_settings)
    {[c := mkChannel n [] 0 []]} bare_host.

(** ** Evaluation lemmas *)

Lemma Range_keys_notify (ks : list chan) (w : World) :
  Range_keys ks (fun listener =>
    sent <- select_send listener settings_ref ;;
    (if sent : bool then ret tt else go_send listener) ;;
    ret true) w
  = Done tt (foldl notify_one w ks).
Proof.
  revert w. induction ks as [|k ks IH]; intros w; [reflexivity|].
  cbn [Range_keys foldl]. unfold bind at 1.
  assert (Hk : (sent <- select_send k settings_ref ;;
                (if sent : bool then ret tt else go_send k) ;; ret true) w
               = Done true (notify_one w k)).
  { unfold bind, select_send, notify_one, go_send, modify, ret.
    destruct (chans w !! k) as [ch|]; [destruct (ready ch)|]; reflexivity. }
  rewrite Hk. apply IH.
Qed.

Lemma apply_eval (w : World) :
  apply w = Done tt (foldl notify_one w (listeners w)).
Proof. unfold apply, Range, bind, gets. apply Range_keys_notify. Qed.

(** *** One notification *)

Lemma notify_one_frame (w : World) (c : chan) :
  store (notify_one w c) = store w /\
  log (notify_one w c) = log w /\
  host (notify_one w c) = host w /\
  ticks (notify_one w c) = S (ticks w).
Proof.
  unfold notify_one.
  destruct (chans w !! c) as [ch|]; [destruct (ready ch)|]; auto.
Qed.

Lemma notify_one_chans_ne (w : World) (c c' : chan) :
  c <> c' -> chans (notify_one w c) !! c' = chans w !! c'.
Proof.
  intros Hne. unfold notify_one.
  destruct (chans w !! c) as [ch|]; [destruct (ready ch)|]; cbn; auto.
  by rewrite lookup_insert_ne.
Qed.

Lemma notify_one_chans_eq (w : World) (c : chan) :
  chans (notify_one w c) !! c =
  if sendable w c then deliver settings_ref <$> chans w !! c
  else chans w !! c.
Proof.
  unfold notify_one, sendable.
  destruct (chans w !! c) as [ch|] eqn:E; [destruct (ready ch)|]; cbn; auto.
  by rewrite lookup_insert_eq.
Qed.

Lemma notify_one_goroutines (w : World) (c : chan) :
  goroutines (notify_one w c) =
  goroutines w ++ (if sendable w c then [] else [c]).
Proof.
  unfold notify_one, sendable.
  destruct (chans w !! c) as [ch|]; [destruct (ready ch)|]; cbn; auto.
  by rewrite app_nil_r.
Qed.

Lemma notify_one_sendable_ne (w : World) (c c' : chan) :
  c <> c' -> sendable (notify_one w c) c' = sendable w c'.
Proof. intros Hne. unfold sendable. by rewrite notify_one_chans_ne. Qed.

(** *** The whole pass *)

Lemma fan_out_frame (ks : list chan) (w : World) :
  store (foldl notify_one w ks) = store w /\
  log (foldl notify_one w ks) = log w /\
  host (foldl notify_one w ks) = host w /\
  ticks (foldl notify_one w ks) = ticks w + length ks.
Proof.
  revert w. induction ks as [|k ks IH]; intros w; cbn [foldl length].
  - repeat split; lia.
  - destruct (IH (notify_one w k)) as (Hs & Hl & Hh & Ht).
    destruct (notify_one_frame w k) as (Hs' & Hl' & Hh' & Ht').
    rewrite Hs, Hl, Hh, Ht, Hs', Hl', Hh', Ht'. repeat split; lia.
Qed.

Lemma fan_out_chans_other (ks : list chan) (w : World) (c : chan) :
  c ∉ ks -> chans (foldl notify_one w ks) !! c = chans w !! c.
Proof.
  revert w. induction ks as [|k ks IH]; intros w Hc; cbn [foldl]; [done|].
  apply not_elem_of_cons in Hc as [Hne Hc].
  rewrite IH by done. by apply notify_one_chans_ne.
Qed.

Lemma fan_out_chans_listener (ks : list chan) (w : World) (c : chan) :
  NoDup ks -> c ∈ ks ->
  chans (foldl notify_one w ks) !! c =
  if sendable w c then deliver settings_ref <$> chans w !! c
  else chans w !! c.
Proof.
  revert w. induction ks as [|k ks IH]; intros w Hnd Hc; cbn [foldl].
  - by apply elem_of_nil in Hc.
  - apply NoDup_cons in Hnd as [Hk Hnd].
    apply elem_of_cons in Hc as [->|Hc].
    + rewrite fan_out_chans_other by done. apply notify_one_chans_eq.
    + assert (k <> c) by (intros ->; done).
      rewrite IH by done.
      by rewrite notify_one_sendable_ne, notify_one_chans_ne.
Qed.

Lemma fan_out_goroutines (ks : list chan) (w : World) :
  NoDup ks ->
  goroutines (foldl notify_one w ks) =
  goroutines w ++ List.filter (fun c => negb (sendable w c)) ks.
Proof.
  revert w. induction ks as [|k ks IH]; intros w Hnd; cbn [foldl List.filter].
  - by rewrite app_nil_r.
  - apply NoDup_cons in Hnd as [Hk Hnd].
    rewrite IH by done. rewrite notify_one_goroutines, <- app_assoc.
    f_equal.
    rewrite (List.filter_ext_in (fun c => negb (sendable (notify_one w k) c))
               (fun c => negb (sendable w c))).
    + by destruct (sendable w k).
    + intros c Hc. rewrite notify_one_sendable_ne; [done|].
      intros ->. apply Hk. by apply list_elem_of_In.
Qed.

Lemma count_occ_filter_NoDup (f : chan -> bool) (ks : list chan) (c : chan) :
  NoDup ks ->
  count_occ Nat.eq_dec (List.filter f ks) c =
  if decide (c ∈ ks) then (if f c then 1 else 0) else 0.
Proof.
  induction ks as [|k ks IH]; intros Hnd; cbn [List.filter].
  - cbn. case_decide as Hc; [by apply elem_of_nil in Hc|done].
  - apply NoDup_cons in Hnd as [Hk Hnd]. specialize (IH Hnd).
    destruct (decide (c = k)) as [->|Hne].
    + rewrite decide_True by (apply elem_of_cons; auto).
      rewrite decide_False in IH by done.
      destruct (f k); [|done].
      cbn [count_occ]. destruct (Nat.eq_dec k k); [|done]. by rewrite IH.
    + assert (c ∈ k :: ks <-> c ∈ ks) as Hiff.
      { rewrite elem_of_cons. split; [by intros [?|?]|by right]. }
      rewrite (decide_ext _ _ _ _ Hiff), <- IH.
      destruct (f k); [|done].
      cbn [count_occ]. by destruct (Nat.eq_dec k c); [subst|].
Qed.

Lemma elem_of_listeners (w : World) (c : chan) :
  c ∈ listeners w <-> is_Some (changeListeners (store w) !! c).
Proof.
  unfold listeners. rewrite list_elem_of_fmap. split.
  - intros ([k b] & -> & Hin). apply elem_of_map_to_list in Hin. eauto.
  - intros [b Hb]. exists (c, b). split; [done|].
    by apply elem_of_map_to_list.
Qed.

Lemma length_listeners (w : World) :
  length (listeners w) = size (changeListeners (store w)).
Proof. unfold listeners. by rewrite length_fmap, length_map_to_list. Qed.

Lemma fan_out_notified (w : World) (c : chan) :
  is_Some (changeListeners (store w) !! c) ->
  notified c w (foldl notify_one w (listeners w)).
Proof.
  intros Hc. apply elem_of_listeners in Hc.
  pose proof (NoDup_fst_map_to_list (changeListeners (store w))) as Hnd.
  fold (listeners w) in Hnd.
  unfold notified, pending.
  rewrite fan_out_chans_listener, fan_out_goroutines by done.
  rewrite count_occ_app, count_occ_filter_NoDup by done.
  rewrite decide_True by done. cbn beta.
  destruct (sendable w c) eqn:Hs; cbn.
  - split; [|apply Nat.add_0_r]. unfold sendable in Hs.
    destruct (chans w !! c) as [ch|]; [|done]. by exists ch.
  - split; [done|apply Nat.add_1_r].
Qed.

Lemma fan_out_untouched (w : World) (c : chan) :
  changeListeners (store w) !! c = None ->
  chans (foldl notify_one w (listeners w)) !! c = chans w !! c /\
  pending c (foldl notify_one w (listeners w)) = pending c w.
Proof.
  intros Hc.
  assert (c ∉ listeners w) as Hn.
  { rewrite elem_of_listeners, Hc. by intros [? ?]. }
  pose proof (NoDup_fst_map_to_list (changeListeners (store w))) as Hnd.
  fold (listeners w) in Hnd.
  split; [by apply fan_out_chans_other|].
  unfold pending. rewrite fan_out_goroutines by done.
  rewrite count_occ_app, count_occ_filter_NoDup by done.
  rewrite decide_False by done. apply Nat.add_0_r.
Qed.

(** *** Sections under the lock *)

Lemma read_locked_eval {A} (body : Go A) (f : World -> A) (w : World) :
  propertyLock (store w) <> WLocked ->
  (forall w1, body w1 = Done (f w1) w1) ->
  (forall l, f (set_store (set_propertyLock l (store w)) w) = f w) ->
  (RLock ;; defer RUnlock body) w = Done (f w) w.
Proof.
  intros Hl Hbody Hf. unfold bind, defer, RLock.
  destruct w as [[l th sp v cl wa sc] ch g lg t h]; cbn in *.
  destruct l as [|n|]; [| |done]; unfold bind; rewrite Hbody; cbn.
  - f_equal. apply (Hf (RLocked 0)).
  - f_equal. apply (Hf (RLocked (S n))).
Qed.

Lemma write_locked_eval {A} (body : Go A) (r : A) (w w2 : World) :
  propertyLock (store w) = Unlocked ->
  body (set_store (set_propertyLock WLocked (store w)) w) = Done r w2 ->
  propertyLock (store w2) = WLocked ->
  (Lock ;; defer Unlock body) w
  = Done r (set_store (set_propertyLock Unlocked (store w2)) w2).
Proof.
  intros Hl Hbody Hl2. unfold bind at 1. unfold Lock. rewrite Hl.
  unfold defer, bind. rewrite Hbody. unfold Unlock. by rewrite Hl2.
Qed.

(** Closes a case of the load that the hypotheses rule out or that holds
    by computation. *)
Ltac load_case :=
  repeat match goal with
         | H : _ \/ _ |- _ => destruct H
         | H : exists _, _ |- _ => destruct H
         end;
  simplify_eq; solve [reflexivity | congruence].

(** *** The writers *)

Lemma apply_fanned_out (w : World) :
  exists w',
    apply w = Done tt w' /\
    store w' = store w /\ log w' = log w /\ host w' = host w /\
    fanned_out w w'.
Proof.
  exists (foldl notify_one w (listeners w)). split; [apply apply_eval|].
  destruct (fan_out_frame (listeners w) w) as (Hs & Hl & Hh & Ht).
  repeat split; try done.
  - by rewrite Ht, length_listeners.
  - by apply fan_out_notified.
  - by apply fan_out_untouched.
  - by apply fan_out_untouched.
Qed.

Lemma applyTheme_spec (th : fyne_Theme) (v : fyne_ThemeVariant) (w : World) :
  propertyLock (store w) = Unlocked ->
  exists w',
    applyTheme th v w = Done tt w' /\
    store w' = set_theme th (set_variant v (store w)) /\
    log w' = log w /\ host w' = host w /\
    fanned_out w w'.
Proof.
  intros Hl.
  set (w1 := set_store
               (set_theme th (set_variant v
                  (set_propertyLock WLocked (store w)))) w).
  destruct (apply_fanned_out w1) as (w2 & He & Hs & Hlg & Hh & Ht & Hn & Hu).
  exists (set_store (set_propertyLock Unlocked (store w2)) w2). split.
  - unfold applyTheme. apply write_locked_eval; [done| |by rewrite Hs].
    unfold bind, modify_store, modify. exact He.
  - rewrite Hs. cbn. split; [|split; [done|split; [done|]]].
    + destruct (store w); cbn in *. by subst.
    + split; [exact Ht|]. split; [exact Hn|exact Hu].
Qed.

Lemma set_log_same (w : World) : set_log (log w) w = w.
Proof. by destruct w. Qed.

Lemma loadSystemTheme_logs_only (w : World) :
  exists th lg,
    loadSystemTheme w = Done th (set_log lg w) /\
    (th = theme_DefaultTheme \/
     exists name content,
       files (host w) (filepath_Join app_RootConfigDir "theme.json")
       = (Some (mkResource name (Some content)), None) /\
       theme_FromJSONReader content = (th, None)).
Proof.
  unfold loadSystemTheme, bind, fyne_LoadResourceFromPath, gets.
  destruct (files (host w) _) as [data [err|]] eqn:Ef.
  - destruct (os_IsNotExist err); cbn.
    + exists theme_DefaultTheme, (log w). rewrite set_log_same. auto.
    + eexists _, _. split; [reflexivity|auto].
  - destruct data as [[name [content|]]|].
    + destruct (theme_FromJSONReader content) as [th [err|]] eqn:E.
      * eexists _, _. split; [reflexivity|auto].
      * exists th, (log w). rewrite set_log_same. split; [done|].
        right. by exists name, content.
    + exists theme_DefaultTheme, (log w). rewrite set_log_same. auto.
    + exists theme_DefaultTheme, (log w). rewrite set_log_same. auto.
Qed.

Lemma setupTheme_spec (w : World) :
  propertyLock (store w) = Unlocked ->
  exists th lg w',
    (if themeSpecified (store w)
     then th = theme (store w) /\ lg = log w
     else loadSystemTheme w = Done th (set_log lg w)) /\
    setupTheme w = Done tt w' /\
    store w' =
      set_theme th
        (set_variant
           (variant_of_name (candidate_name w) (defaultVariant (host w)))
           (store w)) /\
    log w' = lg /\ host w' = host w /\
    fanned_out w w'.
Proof.
  intros Hl.
  set (v := variant_of_name (candidate_name w) (defaultVariant (host w))).
  assert (Hsetup : setupTheme w =
            if themeSpecified (store w)
            then applyTheme (theme (store w)) v w
            else bind loadSystemTheme (fun th => applyTheme th v) w).
  { cbv [setupTheme bind gets os_Getenv app_DefaultVariant ret].
    by destruct (themeSpecified (store w)). }
  rewrite Hsetup. clear Hsetup. subst v. unfold bind.
  destruct (themeSpecified (store w)) eqn:Hsp.
  - destruct (applyTheme_spec (theme (store w))
                (variant_of_name (candidate_name w) (defaultVariant (host w)))
                w Hl) as (w' & He & Hs & Hlg & Hh & Hf).
    exists (theme (store w)), (log w), w'. by rewrite He.
  - destruct (loadSystemTheme_logs_only w) as (th & lg & Hload & _).
    rewrite Hload.
    destruct (applyTheme_spec th
                (variant_of_name (candidate_name w) (defaultVariant (host w)))
                (set_log lg w) Hl) as (w' & He & Hs & Hlg & Hh & Hf).
    exists th, lg, w'. by rewrite He.
Qed.

Lemma load_spec (w : World) :
  propertyLock (store w) = Unlocked ->
  load w = Done tt (set_store (set_schema (settingsFile (host w)) (store w)) w).
Proof.
  intros Hl. unfold load, bind at 1, gets.
  erewrite write_locked_eval; [|done|reflexivity|reflexivity].
  cbn. destruct w as [[]]; cbn in *. by subst.
Qed.

Lemma fileChanged_spec (w : World) :
  propertyLock (store w) = Unlocked ->
  exists w',
    fileChanged w = Done tt w' /\
    store w' = set_schema (settingsFile (host w)) (store w) /\
    log w' = log w /\ host w' = host w /\
    fanned_out w w'.
Proof.
  intros Hl. unfold fileChanged, bind. rewrite load_spec by done.
  destruct (apply_fanned_out
              (set_store (set_schema (settingsFile (host w)) (store w)) w))
    as (w' & He & Hs & Hlg & Hh & Hf).
  exists w'. by rewrite He.
Qed.

Lemma SetTheme_spec (th : fyne_Theme) (w : World) :
  propertyLock (store w) = Unlocked ->
  exists w',
    SetTheme th w = Done tt w' /\
    store w' = set_theme th (set_themeSpecified true (store w)) /\
    log w' = log w /\ host w' = host w /\
    fanned_out w w'.
Proof.
  intros Hl.
  destruct (applyTheme_spec th (variant (store w))
              (set_store (set_themeSpecified true (store w)) w) Hl)
    as (w' & He & Hs & Hlg & Hh & Hf).
  exists w'. split; [exact He|].
  split; [|done]. rewrite Hs. by destruct (store w).
Qed.

Lemma OverrideTheme_eval (th : fyne_Theme) (name : string) (w : World) :
  propertyLock (store w) = Unlocked ->
  OverrideTheme th name w
  = Done tt
      (set_store
         (set_theme th
            (set_schema
               (SettingsSchema.set_PrimaryColor name (schema (store w)))
               (store w))) w).
Proof.
  intros Hl. unfold OverrideTheme.
  erewrite write_locked_eval; [|done|reflexivity|reflexivity].
  destruct w as [[]]; cbn in *. by subst.
Qed.

Lemma Theme_pinned (th : fyne_Theme) (w : World) :
  pinned th w -> Theme store_ptr w = Done th w.
Proof.
  intros (Hl & _ & <-). cbn [Theme].
  apply (read_locked_eval _ (fun w1 => theme (store w1))); [|done|done].
  by rewrite Hl.
Qed.

Lemma run_event_pinned (th : fyne_Theme) (e : later_event) (w : World) :
  pinned th w -> exists w', run_event e w = Done tt w' /\ pinned th w'.
Proof.
  intros Hp. pose proof Hp as (Hl & Hsp & Hth). destruct e; cbn [run_event].
  - eexists. split; [reflexivity|done].
  - eexists. split; [reflexivity|done].
  - eexists. split; [reflexivity|done].
  - destruct (fileChanged_spec w Hl) as (w' & He & Hs & _).
    exists w'. split; [done|]. unfold pinned. by rewrite Hs.
  - destruct (setupTheme_spec w Hl) as (t & lg & w' & Hsrc & He & Hs & _).
    rewrite Hsp in Hsrc. destruct Hsrc as [-> _].
    exists w'. split; [done|]. unfold pinned. rewrite Hs. cbn.
    by rewrite Hl, Hsp.
  - exists w. unfold bind. by rewrite (Theme_pinned th w Hp).
Qed.

Lemma run_events_pinned (th : fyne_Theme) (es : list later_event) (w : World) :
  pinned th w -> exists w', run_events es w = Done tt w' /\ pinned th w'.
Proof.
  revert w. induction es as [|e es IH]; intros w Hp; cbn [run_events].
  - by exists w.
  - destruct (run_event_pinned th e w Hp) as (w1 & He & Hp1).
    destruct (IH w1 Hp1) as (w2 & Hes & Hp2).
    exists w2. unfold bind. by rewrite He.
Qed.

(** *** [float32] comparisons against the literals *)

Lemma f32_above_zero_not_below (v : float32) :
  SFltb f32_0 v = true -> SFltb v f32_0 = false.
Proof. by destruct v as [[]|[]| |[] m e]. Qed.

Lemma f32_1_valid : float32_valid f32_1 = true.
Proof. reflexivity. Qed.

(** ** The getters *)

(** C1 (amended): for every store whose lock no writer holds, [Scale]
    returns exactly 1.0 when the stored scale [v] is below zero and [v]
    itself otherwise, so in particular when [v > 0]; what a reader sees is
    therefore never below zero, and the read leaves the whole state, the
    raw [schema.Scale] included, as it was. *)
Theorem Scale_coerces_negative_only (w : World) :
  propertyLock (store w) <> WLocked ->
  exists r,
    Scale w = Done r w /\
    (SFltb (SettingsSchema.Scale (schema (store w))) f32_0 = true ->
     r = f32_1) /\
    (SFltb (SettingsSchema.Scale (schema (store w))) f32_0 = false ->
     r = SettingsSchema.Scale (schema (store w))) /\
    (SFltb f32_0 (SettingsSchema.Scale (schema (store w))) = true ->
     r = SettingsSchema.Scale (schema (store w))) /\
    SFltb r f32_0 = false.
Proof.
  intros Hl. set (v := SettingsSchema.Scale (schema (store w))).
  exists (if SFltb v f32_0 then f32_1 else v). split.
  - unfold Scale.
    apply (read_locked_eval _
             (fun w1 =>
                if SFltb (SettingsSchema.Scale (schema (store w1))) f32_0
                then f32_1 else SettingsSchema.Scale (schema (store w1))));
      [done| |done].
    intros w1. unfold bind, gets. by destruct (SFltb _ f32_0).
  - destruct (SFltb v f32_0) eqn:E; repeat split; try done.
    intros Hpos. apply f32_above_zero_not_below in Hpos. congruence.
Qed.

(** C5: [ShowAnimations] answers false exactly when the schema's
    [DisableAnimations] is true or the process-wide [noAnimations] flag is
    set, and true otherwise; it takes no lock and changes nothing. *)
Theorem ShowAnimations_truth_table (w : World) :
  exists b,
    ShowAnimations w = Done b w /\
    (b = false <->
     SettingsSchema.DisableAnimations (schema (store w)) = true \/
     noAnimations = true) /\
    (b = true <->
     SettingsSchema.DisableAnimations (schema (store w)) = false /\
     noAnimations = false).
Proof.
  eexists. split; [reflexivity|].
  destruct (SettingsSchema.DisableAnimations _);
    destruct noAnimations eqn:Hflag; cbn;
    repeat split; intros; try done; auto; by destruct_or?; destruct_and?.
Qed.

(** C9: [Theme] on a nil receiver logs the diagnostic and returns nil,
    whatever the rest of the program's state, with nothing else changed;
    on the store it returns the current theme and changes nothing. *)
Theorem Theme_nil_guard (w : World) :
  Theme nil_ptr w
  = Done None
      (set_log
         (log w ++
          [("Attempt to access current Fyne theme when no app is started",
            None)]) w)
  /\ (propertyLock (store w) <> WLocked ->
      Theme store_ptr w = Done (theme (store w)) w).
Proof.
  split; [reflexivity|].
  intros Hl. cbn [Theme].
  by apply (read_locked_eval _ (fun w1 => theme (store w1))).
Qed.

(** ** The fan-out *)

(** C2 (amended): [apply] finishes from every state, never parked on a
    send, after exactly one non-blocking channel operation per registered
    channel, whatever number of them are not receiving.  A registered
    channel that could take the send holds the store reference afterwards
    (handed to a parked receiver or queued) and no goroutine was started
    for it; one that could not is left as it was and exactly one goroutine
    has been started to send on it, so the update is not dropped.  Other
    channels, the store, the log and the host are untouched. *)
Theorem apply_never_blocks (w : World) :
  exists w',
    apply w = Done tt w' /\
    store w' = store w /\ log w' = log w /\ host w' = host w /\
    ticks w' = ticks w + size (changeListeners (store w)) /\
    (forall c, is_Some (changeListeners (store w) !! c) ->
       match chans w !! c with
       | Some ch =>
           if ready ch
           then chans w' !! c = Some (deliver settings_ref ch) /\
                pending c w' = pending c w
           else chans w' !! c = Some ch /\
                pending c w' = S (pending c w)
       | None =>
           chans w' !! c = None /\ pending c w' = S (pending c w)
       end) /\
    (forall c, changeListeners (store w) !! c = None ->
               chans w' !! c = chans w !! c /\ pending c w' = pending c w).
Proof.
  destruct (apply_fanned_out w) as (w' & He & Hs & Hl & Hh & Ht & Hn & Hu).
  exists w'. repeat (split; [assumption|]). split; [|exact Hu].
  intros c Hc. specialize (Hn c Hc). unfold notified, sendable in Hn.
  destruct (chans w !! c) as [ch|] eqn:Ech.
  - destruct (ready ch); [|exact Hn].
    destruct Hn as [(ch' & Hch' & Hafter) Hp].
    injection Hch' as <-. by split.
  - exact Hn.
Qed.

(** ** Setting and previewing a theme *)

(** C7: on a store whose lock is free, [SetTheme t] finishes with the
    override flag true and the theme [t]; the variant and every other
    field of the store are as before, and the listeners have been
    notified by one pass of the fan-out.  A further [SetTheme] leaves the
    flag true. *)
Theorem SetTheme_sets_flag_and_notifies (t : fyne_Theme) (w : World) :
  propertyLock (store w) = Unlocked ->
  exists w',
    SetTheme t w = Done tt w' /\
    themeSpecified (store w') = true /\
    theme (store w') = t /\
    variant (store w') = variant (store w) /\
    store w' = set_theme t (set_themeSpecified true (store w)) /\
    fanned_out w w' /\
    (forall t2, exists w'',
        SetTheme t2 w' = Done tt w'' /\
        themeSpecified (store w'') = true /\
        theme (store w'') = t2 /\
        variant (store w'') = variant (store w)).
Proof.
  intros Hl.
  destruct (SetTheme_spec t w Hl) as (w' & He & Hs & _ & _ & Hf).
  exists w'. rewrite Hs. repeat (split; [done|]).
  intros t2.
  destruct (SetTheme_spec t2 w') as (w'' & He2 & Hs2 & _).
  { by rewrite Hs. }
  exists w''. by rewrite Hs2, Hs.
Qed.

(** C8: on a store whose lock is free, [OverrideTheme t c] finishes with
    [schema.PrimaryColor = c] and the theme [t], and without any
    notification: no channel operation is made, every channel is as it
    was and no goroutine is started. *)
Theorem OverrideTheme_is_silent (t : fyne_Theme) (c : string) (w : World) :
  propertyLock (store w) = Unlocked ->
  exists w',
    OverrideTheme t c w = Done tt w' /\
    SettingsSchema.PrimaryColor (schema (store w')) = c /\
    theme (store w') = t /\
    chans w' = chans w /\
    goroutines w' = goroutines w /\
    ticks w' = ticks w /\
    log w' = log w.
Proof.
  intros Hl. eexists. split; [by apply OverrideTheme_eval|done].
Qed.

(** C10: [OverrideTheme] leaves the override flag, the variant and every
    schema field but [PrimaryColor] as they were; so on a store whose flag
    is down, a following [setupTheme] drops the previewed theme for what
    [loadSystemTheme] yields: the theme parsed from the user's document,
    or the built-in default. *)
Theorem OverrideTheme_frame (t : fyne_Theme) (c : string) (w : World) :
  propertyLock (store w) = Unlocked ->
  exists w',
    OverrideTheme t c w = Done tt w' /\
    themeSpecified (store w') = themeSpecified (store w) /\
    variant (store w') = variant (store w) /\
    changeListeners (store w') = changeListeners (store w) /\
    watcher (store w') = watcher (store w) /\
    propertyLock (store w') = Unlocked /\
    schema (store w') = SettingsSchema.set_PrimaryColor c (schema (store w)) /\
    SettingsSchema.ThemeName (schema (store w'))
      = SettingsSchema.ThemeName (schema (store w)) /\
    SettingsSchema.Scale (schema (store w'))
      = SettingsSchema.Scale (schema (store w)) /\
    SettingsSchema.CloudName (schema (store w'))
      = SettingsSchema.CloudName (schema (store w)) /\
    SettingsSchema.CloudConfig (schema (store w'))
      = SettingsSchema.CloudConfig (schema (store w)) /\
    SettingsSchema.DisableAnimations (schema (store w'))
      = SettingsSchema.DisableAnimations (schema (store w)) /\
    (themeSpecified (store w) = false ->
     exists sys w1 w2,
       loadSystemTheme w' = Done sys w1 /\
       setupTheme w' = Done tt w2 /\
       theme (store w2) = sys /\
       (sys = theme_DefaultTheme \/
        exists name content,
          files (host w) (filepath_Join app_RootConfigDir "theme.json")
          = (Some (mkResource name (Some content)), None) /\
          theme_FromJSONReader content = (sys, None))).
Proof.
  intros Hl.
  set (w' := set_store
               (set_theme t
                  (set_schema
                     (SettingsSchema.set_PrimaryColor c (schema (store w)))
                     (store w))) w).
  exists w'. split; [by apply OverrideTheme_eval|].
  repeat (split; [reflexivity || exact Hl|]). intros Hsp.
  destruct (setupTheme_spec w' Hl) as (sys & lg & w2 & Hsrc & He & Hs & _).
  change (themeSpecified (store w')) with (themeSpecified (store w)) in Hsrc.
  rewrite Hsp in Hsrc.
  destruct (loadSystemTheme_logs_only w') as (sys' & lg' & Hload & Hkind).
  rewrite Hload in Hsrc. injection Hsrc as <- _.
  exists sys', (set_log lg' w'), w2. by rewrite Hs.
Qed.

(** ** Set-up *)

(** C3: on a store whose lock is free, [setupTheme] finishes; the name it
    goes by is the schema's [ThemeName] unless [FYNE_THEME] is set and not
    empty, in which case it is that value; and the variant afterwards is
    Light for the name "light", Dark for "dark", and for any other name,
    the empty one included, the host's default variant. *)
Theorem setupTheme_variant (w : World) :
  propertyLock (store w) = Unlocked ->
  exists name w',
    setupTheme w = Done tt w' /\
    (forall env, environ (host w) "FYNE_THEME" = Some env -> env <> "" ->
                 name = env) /\
    (environ (host w) "FYNE_THEME" = None \/
     environ (host w) "FYNE_THEME" = Some "" ->
     name = SettingsSchema.ThemeName (schema (store w))) /\
    (name = "light" -> variant (store w') = theme_VariantLight) /\
    (name = "dark" -> variant (store w') = theme_VariantDark) /\
    (name <> "light" -> name <> "dark" ->
     variant (store w') = defaultVariant (host w)).
Proof.
  intros Hl.
  destruct (setupTheme_spec w Hl) as (th & lg & w' & _ & He & Hs & _).
  exists (candidate_name w), w'. split; [done|]. rewrite Hs. cbn.
  unfold candidate_name, variant_of_name. repeat split.
  - intros env -> Hne. cbn. apply String.eqb_neq in Hne. by rewrite Hne.
  - by intros [-> | ->].
  - by intros ->.
  - by intros ->.
  - intros Hn1 Hn2. apply String.eqb_neq in Hn1, Hn2. by rewrite Hn1, Hn2.
Qed.

(** C6: [loadSystemTheme] always returns a theme and never parks or stops
    the caller.  When the user's theme document is absent it returns the
    built-in default and logs nothing; on any other read failure, and on
    a document that does not parse, it returns the built-in default after
    logging the failure; nothing but the log changes.  (A document that
    parses gives its theme, a resource without content the default, both
    silently.)  Whatever the document, [setupTheme] on a store whose lock
    is free finishes. *)
Theorem loadSystemTheme_degrades (w : World) :
  let path := filepath_Join app_RootConfigDir "theme.json" in
  exists th w',
    loadSystemTheme w = Done th w' /\
    (forall data err,
        files (host w) path = (data, Some err) -> os_IsNotExist err = true ->
        th = theme_DefaultTheme /\ w' = w) /\
    (forall data err,
        files (host w) path = (data, Some err) -> os_IsNotExist err = false ->
        th = theme_DefaultTheme /\
        w' = set_log
               (log w ++
                [(("Failed to load user theme file: " ++ path)%string,
                  Some err)]) w) /\
    (forall name content th0 err,
        files (host w) path = (Some (mkResource name (Some content)), None) ->
        theme_FromJSONReader content = (th0, Some err) ->
        th = theme_DefaultTheme /\
        w' = set_log
               (log w ++
                [(("Failed to parse user theme file: " ++ path)%string,
                  Some err)]) w) /\
    (forall name content th0,
        files (host w) path = (Some (mkResource name (Some content)), None) ->
        theme_FromJSONReader content = (th0, None) ->
        th = th0 /\ w' = w) /\
    (files (host w) path = (None, None) \/
     (exists name, files (host w) path = (Some (mkResource name None), None)) ->
     th = theme_DefaultTheme /\ w' = w) /\
    (propertyLock (store w) = Unlocked ->
     exists w2, setupTheme w = Done tt w2).
Proof.
  intros path.
  assert (Hsetup : propertyLock (store w) = Unlocked ->
                   exists w2, setupTheme w = Done tt w2).
  { intros Hl.
    destruct (setupTheme_spec w Hl) as (th & lg & w2 & _ & He & _).
    by exists w2. }
  revert Hsetup.
  unfold loadSystemTheme, bind, fyne_LoadResourceFromPath, gets.
  fold path. intros Hsetup.
  destruct (files (host w) path) as [data [err|]].
  - destruct (os_IsNotExist err) eqn:Hne; cbn;
      (eexists _, _; split; [reflexivity|]);
      (repeat split; [..|exact Hsetup]); intros; load_case.
  - destruct data as [[name [content|]]|];
      [destruct (theme_FromJSONReader content) as [th [err|]] eqn:E| |];
      (eexists _, _; split; [reflexivity|]);
      (repeat split; [..|exact Hsetup]); intros; load_case.
Qed.

(** ** A set theme stays *)

(** C4: on a store whose lock is free, after [SetTheme T] a call of
    [Theme] returns [T].  A [fileChanged] then finishes with the schema
    replaced by the persisted one and the listeners notified, the theme
    still [T], the variant and the override flag unchanged; and after any
    later sequence of host changes, steps of other goroutines on the
    channels, added listeners, [fileChanged] calls, runs of [setupTheme]
    and reads, the flag is still up and [Theme] still returns [T]. *)
Theorem SetTheme_is_sticky (T : fyne_Theme) (w : World) :
  propertyLock (store w) = Unlocked ->
  exists w1,
    SetTheme T w = Done tt w1 /\
    Theme store_ptr w1 = Done T w1 /\
    (exists w2,
        fileChanged w1 = Done tt w2 /\
        store w2 = set_schema (settingsFile (host w1)) (store w1) /\
        theme (store w2) = T /\
        variant (store w2) = variant (store w1) /\
        themeSpecified (store w2) = true /\
        fanned_out w1 w2 /\
        Theme store_ptr w2 = Done T w2) /\
    (forall es, exists w3,
        run_events es w1 = Done tt w3 /\
        themeSpecified (store w3) = true /\
        Theme store_ptr w3 = Done T w3).
Proof.
  intros Hl.
  destruct (SetTheme_spec T w Hl) as (w1 & He & Hs & _).
  assert (Hp : pinned T w1).
  { unfold pinned. rewrite Hs. cbn. by rewrite Hl. }
  exists w1. split; [done|]. split; [by apply Theme_pinned|]. split.
  - destruct Hp as (Hl1 & Hsp1 & Hth1).
    destruct (fileChanged_spec w1 Hl1) as (w2 & Hf & Hs2 & _ & _ & Hfan).
    exists w2. rewrite Hs2. cbn. repeat (split; [done|]).
    apply Theme_pinned. unfold pinned. by rewrite Hs2.
  - intros es.
    destruct (run_events_pinned T es w1 Hp) as (w3 & Hes & Hp3).
    exists w3. split; [done|]. split; [apply Hp3|by apply Theme_pinned].
Qed.

(** ** Beyond the claims: registration, previews, the lock *)

Lemma applyVariant_spec (v : fyne_ThemeVariant) (w : World) :
  propertyLock (store w) = Unlocked ->
  exists w',
    applyVariant v w = Done tt w' /\
    store w' = set_variant v (store w) /\
    log w' = log w /\ host w' = host w /\
    fanned_out w w'.
Proof.
  intros Hl.
  set (w1 := set_store (set_variant v (set_propertyLock WLocked (store w))) w).
  destruct (apply_fanned_out w1) as (w2 & He & Hs & Hlg & Hh & Ht & Hn & Hu).
  exists (set_store (set_propertyLock Unlocked (store w2)) w2). split.
  - unfold applyVariant. apply write_locked_eval; [done| |by rewrite Hs].
    unfold bind, modify_store, modify. exact He.
  - rewrite Hs. cbn. split; [|split; [done|split; [done|]]].
    + destruct (store w); cbn in *. by subst.
    + split; [exact Ht|]. split; [exact Hn|exact Hu].
Qed.

Lemma PrimaryColor_eval (w : World) :
  propertyLock (store w) <> WLocked ->
  PrimaryColor w = Done (SettingsSchema.PrimaryColor (schema (store w))) w.
Proof.
  intros Hl. unfold PrimaryColor.
  by apply (read_locked_eval _
              (fun w1 => SettingsSchema.PrimaryColor (schema (store w1)))).
Qed.

Lemma Theme_eval (w : World) :
  propertyLock (store w) <> WLocked ->
  Theme store_ptr w = Done (theme (store w)) w.
Proof.
  intros Hl. cbn [Theme].
  by apply (read_locked_eval _ (fun w1 => theme (store w1))).
Qed.

Lemma Scale_eval (w : World) :
  propertyLock (store w) <> WLocked ->
  Scale w
  = Done (if SFltb (SettingsSchema.Scale (schema (store w))) f32_0
          then f32_1 else SettingsSchema.Scale (schema (store w))) w.
Proof.
  intros Hl. unfold Scale.
  apply (read_locked_eval _
           (fun w1 =>
              if SFltb (SettingsSchema.Scale (schema (store w1))) f32_0
              then f32_1 else SettingsSchema.Scale (schema (store w1))));
    [done| |done].
  intros w1. unfold bind, gets. by destruct (SFltb _ f32_0).
Qed.

(** X1: [AddChangeListener] registers the channel in every state, the
    lock held or not, and changes nothing else: the other registrations,
    the channels, the goroutines, the log and the clock are as before.
    Registering a channel that is registered already changes nothing at
    all, so the registry counts a channel once however often it is
    added. *)
Theorem AddChangeListener_registers_once (c : chan) (w : World) :
  exists w',
    AddChangeListener c w = Done tt w' /\
    changeListeners (store w') !! c = Some true /\
    (forall c', c' <> c ->
       changeListeners (store w') !! c' = changeListeners (store w) !! c') /\
    size (changeListeners (store w')) =
      match changeListeners (store w) !! c with
      | Some _ => size (changeListeners (store w))
      | None => S (size (changeListeners (store w)))
      end /\
    chans w' = chans w /\ goroutines w' = goroutines w /\
    log w' = log w /\ ticks w' = ticks w /\ host w' = host w /\
    theme (store w') = theme (store w) /\
    schema (store w') = schema (store w) /\
    AddChangeListener c w' = Done tt w'.
Proof.
  eexists. split; [reflexivity|]. cbn.
  split; [apply lookup_insert_eq|].
  split; [intros c' Hne; by apply lookup_insert_ne|].
  split.
  { rewrite map_size_insert. by destruct (changeListeners (store w) !! c). }
  repeat (split; [reflexivity|]).
  unfold AddChangeListener, modify_store, modify, set_store. cbn.
  by rewrite insert_insert_eq.
Qed.

(** X2: a channel registered before a [SetTheme] is notified by it: the
    store reference is in the channel, or a goroutine waits to send it. *)
Theorem new_listener_is_notified (c : chan) (th : fyne_Theme) (w : World) :
  propertyLock (store w) = Unlocked ->
  exists w',
    (AddChangeListener c ;; SetTheme th) w = Done tt w' /\
    theme (store w') = th /\
    changeListeners (store w') !! c = Some true /\
    notified c w w'.
Proof.
  intros Hl. unfold bind at 1.
  set (w1 := set_store
               (set_changeListeners (<[c:=true]> (changeListeners (store w)))
                  (store w)) w).
  change (AddChangeListener c w) with (Done tt w1).
  destruct (SetTheme_spec th w1 Hl) as (w' & He & Hs & _ & _ & _ & Hn & _).
  exists w'. split; [exact He|]. rewrite Hs. cbn.
  split; [done|]. split; [apply lookup_insert_eq|].
  apply (Hn c). cbn. rewrite lookup_insert_eq. by eexists.
Qed.

(** X3: on a store whose lock is free, [applyVariant v] stores the variant
    and nothing else (theme, override flag, schema and listeners are as
    before), notifies the listeners by one pass of the fan-out, and a
    following [ThemeVariant] returns [v]. *)
Theorem applyVariant_sets_variant_only (v : fyne_ThemeVariant) (w : World) :
  propertyLock (store w) = Unlocked ->
  exists w',
    applyVariant v w = Done tt w' /\
    store w' = set_variant v (store w) /\
    theme (store w') = theme (store w) /\
    themeSpecified (store w') = themeSpecified (store w) /\
    log w' = log w /\
    fanned_out w w' /\
    ThemeVariant w' = Done v w'.
Proof.
  intros Hl.
  destruct (applyVariant_spec v w Hl) as (w' & He & Hs & Hlg & _ & Hf).
  exists w'. split; [exact He|]. split; [exact Hs|].
  rewrite Hs. repeat (split; [done|]).
  unfold ThemeVariant, gets. by rewrite Hs.
Qed.

(** X4: what [OverrideTheme] writes is what the getters read back: after
    [OverrideTheme t c] on a store whose lock is free, [PrimaryColor]
    returns [c] and [Theme] returns [t], and neither read changes the
    state. *)
Theorem OverrideTheme_read_back (t : fyne_Theme) (c : string) (w : World) :
  propertyLock (store w) = Unlocked ->
  exists w',
    OverrideTheme t c w = Done tt w' /\
    PrimaryColor w' = Done c w' /\
    Theme store_ptr w' = Done t w'.
Proof.
  intros Hl. eexists. split; [by apply OverrideTheme_eval|]. split.
  - rewrite PrimaryColor_eval; [done|]. cbn. by rewrite Hl.
  - rewrite Theme_eval; [done|]. cbn. by rewrite Hl.
Qed.

(** X5: a preview is undone by a second call with the remembered theme and
    colour: after [OverrideTheme t c], calling [OverrideTheme] with the
    theme and the primary colour the store had before gives back the very
    state the preview started from. *)
Theorem OverrideTheme_revert (t : fyne_Theme) (c : string) (w : World) :
  propertyLock (store w) = Unlocked ->
  exists w',
    OverrideTheme t c w = Done tt w' /\
    OverrideTheme (theme (store w))
      (SettingsSchema.PrimaryColor (schema (store w))) w'
    = Done tt w.
Proof.
  intros Hl. eexists. split; [by apply OverrideTheme_eval|].
  rewrite OverrideTheme_eval by (cbn; exact Hl).
  destruct w as [[l th sp v cl wa [n sc pc cn cc da]] ch g lg tk h].
  reflexivity.
Qed.

(** X6: a writer that finds the lock taken parks before it writes:
    [OverrideTheme], [applyTheme] and [applyVariant] leave the state as it
    was and notify nobody.  [SetTheme] is the exception: it raises the
    override flag before it asks for the lock, so it parks with the flag
    already true, the theme, the variant and the channels untouched. *)
Theorem writers_park_on_a_taken_lock
    (t : fyne_Theme) (c : string) (v : fyne_ThemeVariant) (w : World) :
  propertyLock (store w) <> Unlocked ->
  OverrideTheme t c w = Blocked w /\
  applyTheme t v w = Blocked w /\
  applyVariant v w = Blocked w /\
  SetTheme t w = Blocked (set_store (set_themeSpecified true (store w)) w).
Proof.
  intros Hl.
  assert (HL : forall w0 : World,
             propertyLock (store w0) <> Unlocked -> Lock w0 = Blocked w0).
  { intros w0 H0. unfold Lock. by destruct (propertyLock (store w0)). }
  repeat split.
  - unfold OverrideTheme, bind at 1. by rewrite HL.
  - unfold applyTheme, bind at 1. by rewrite HL.
  - unfold applyVariant, bind at 1. by rewrite HL.
  - unfold SetTheme, applyTheme, bind, modify_store, modify, gets.
    by rewrite HL.
Qed.

(** X7: while a writer holds the lock, [Theme], [PrimaryColor] and
    [Scale] park and leave the state as it is; [ThemeVariant] and
    [ShowAnimations], which read without the lock, still answer. *)
Theorem readers_under_a_writer (w : World) :
  propertyLock (store w) = WLocked ->
  Theme store_ptr w = Blocked w /\
  PrimaryColor w = Blocked w /\
  Scale w = Blocked w /\
  ThemeVariant w = Done (variant (store w)) w /\
  ShowAnimations w
  = Done (negb (SettingsSchema.DisableAnimations (schema (store w)))
          && negb noAnimations) w.
Proof.
  intros Hl. unfold Theme, PrimaryColor, Scale, bind, RLock.
  by rewrite Hl.
Qed.

(** X8: with no listener registered the fan-out does nothing: [apply]
    returns at once, the state unchanged. *)
Theorem apply_without_listeners (w : World) :
  changeListeners (store w) = ∅ ->
  apply w = Done tt w.
Proof.
  intros He. rewrite apply_eval. unfold listeners.
  by rewrite He, map_to_list_empty.
Qed.

(** ** Beyond the claims: channels and goroutines *)

Lemma deliver_cap (v : fyne_Settings) (ch : channel) :
  cap (deliver v ch) = cap ch.
Proof. unfold deliver. by destruct (0 <? recvq ch)%nat. Qed.

Lemma deliver_count (v : fyne_Settings) (ch : channel) :
  length (buf (deliver v ch)) + length (received (deliver v ch))
  = S (length (buf ch) + length (received ch)).
Proof.
  unfold deliver. destruct (0 <? recvq ch)%nat; cbn;
    rewrite length_app; cbn; lia.
Qed.

Lemma deliver_within (v : fyne_Settings) (ch : channel) :
  ready ch = true ->
  length (buf ch) <= cap ch ->
  length (buf (deliver v ch)) <= cap ch.
Proof.
  unfold ready, deliver. destruct (0 <? recvq ch)%nat; cbn; [done|].
  intros Hr%Nat.ltb_lt _. rewrite length_app. cbn. lia.
Qed.

Lemma count_occ_delete (l : list chan) (i : nat) (c c' : chan) :
  l !! i = Some c ->
  count_occ Nat.eq_dec (delete i l) c' =
  if decide (c' = c) then pred (count_occ Nat.eq_dec l c')
  else count_occ Nat.eq_dec l c'.
Proof.
  unfold chan in *.
  revert i. induction l as [|x l IH]; intros [|i] Hi; try done.
  - cbn in Hi. injection Hi as ->. cbn.
    destruct (Nat.eq_dec c c') as [->|Hne].
    + by rewrite decide_True.
    + rewrite decide_False; [done|]. by intros ->.
  - cbn in Hi. specialize (IH i Hi).
    change (delete (S i) (x :: l)) with (x :: delete i l).
    destruct (Nat.eq_dec x c') as [Hx|Hx].
    + rewrite !(count_occ_cons_eq _ _ Hx), IH.
      case_decide as Hc; [|done]. subst.
      assert (0 < count_occ Nat.eq_dec l c).
      { apply count_occ_In, list_elem_of_In.
        by eapply list_elem_of_lookup_2. }
      lia.
    + by rewrite !(count_occ_cons_neq _ _ Hx).
Qed.

Lemma apply_times_spec (c : chan) (n : nat) (w : World) :
  is_Some (changeListeners (store w) !! c) ->
  sendable w c = false ->
  exists w',
    apply_times n w = Done tt w' /\
    store w' = store w /\
    chans w' !! c = chans w !! c /\
    pending c w' = pending c w + n /\
    ticks w' = ticks w + n * size (changeListeners (store w)).
Proof.
  revert w. induction n as [|n IH]; intros w Hc Hs; cbn [apply_times].
  - exists w. repeat split; try done; unfold chan in *; lia.
  - destruct (apply_fanned_out w) as (w1 & He & Hst & _ & _ & Ht & Hn & _).
    specialize (Hn c Hc). unfold notified in Hn. rewrite Hs in Hn.
    destruct Hn as [Hch Hp].
    destruct (IH w1) as (w' & He' & Hst' & Hch' & Hp' & Ht').
    { by rewrite Hst. }
    { unfold sendable in *. by rewrite Hch. }
    exists w'. unfold bind. rewrite He. split; [exact He'|].
    rewrite Hst', Hch', Hp', Ht', Hst, Hch, Hp, Ht.
    repeat split; unfold chan in *; lia.
Qed.

(** X9: a registered subscriber that never receives costs one goroutine
    per notification: after [n] passes of the fan-out over a channel that
    cannot take a send, [n] more goroutines wait to send on it, the
    channel itself is as it was, and every pass still finished. *)
Theorem undrained_listener_collects_goroutines
    (c : chan) (n : nat) (w : World) :
  is_Some (changeListeners (store w) !! c) ->
  sendable w c = false ->
  exists w',
    apply_times n w = Done tt w' /\
    pending c w' = pending c w + n /\
    chans w' !! c = chans w !! c.
Proof.
  intros Hc Hs.
  destruct (apply_times_spec c n w Hc Hs) as (w' & He & _ & Hch & Hp & _).
  by exists w'.
Qed.

(** X10: the fan-out respects the buffers: if no channel holds more than
    its capacity before [apply], none does after, and [apply] neither
    makes nor removes a channel nor changes a capacity. *)
Theorem apply_keeps_buffers_within_capacity (w : World) :
  buffers_within_capacity w ->
  exists w',
    apply w = Done tt w' /\
    buffers_within_capacity w' /\
    (forall c, cap <$> chans w' !! c = cap <$> chans w !! c).
Proof.
  intros Hok.
  destruct (apply_fanned_out w) as (w' & He & _ & _ & _ & _ & Hn & Hu).
  exists w'. split; [exact He|].
  assert (Hcase : forall c,
             chans w' !! c = chans w !! c \/
             exists ch, chans w !! c = Some ch /\ ready ch = true /\
                        chans w' !! c = Some (deliver settings_ref ch)).
  { intros c. destruct (changeListeners (store w) !! c) as [b|] eqn:Hc.
    - assert (Hs : is_Some (changeListeners (store w) !! c)) by eauto.
      specialize (Hn c Hs). unfold notified, sendable in Hn.
      destruct (chans w !! c) as [ch|] eqn:Ech; [|left; apply Hn].
      destruct (ready ch) eqn:Hr; [|left; apply Hn].
      destruct Hn as [(ch' & Hch' & Hafter) _]. injection Hch' as <-.
      right. by exists ch.
    - left. by apply Hu. }
  split.
  - intros c ch' Hch'. destruct (Hcase c) as [Hsame|(ch & Hch & Hr & Hd)].
    + rewrite Hsame in Hch'. by apply (Hok c).
    + rewrite Hd in Hch'. injection Hch' as <-. rewrite deliver_cap.
      apply deliver_within; [done|]. by apply (Hok c).
  - intros c. destruct (Hcase c) as [Hsame|(ch & Hch & Hr & Hd)].
    + by rewrite Hsame.
    + rewrite Hd, Hch. cbn. by rewrite deliver_cap.
Qed.

(** X11: the fan-out neither drops nor doubles an update: one pass of
    [apply] adds exactly one store reference to what is on its way to
    each registered subscriber (queued, handed over, or held by a waiting
    goroutine), and none for a channel that is not registered. *)
Theorem apply_sends_each_listener_one (w : World) :
  exists w',
    apply w = Done tt w' /\
    (forall c, is_Some (changeListeners (store w) !! c) ->
               in_flight c w' = S (in_flight c w)) /\
    (forall c, changeListeners (store w) !! c = None ->
               in_flight c w' = in_flight c w).
Proof.
  destruct (apply_fanned_out w) as (w' & He & _ & _ & _ & _ & Hn & Hu).
  exists w'. split; [exact He|]. split.
  - intros c Hc. specialize (Hn c Hc). unfold notified, sendable in Hn.
    unfold in_flight.
    destruct (chans w !! c) as [ch|] eqn:Ech.
    + destruct (ready ch).
      * destruct Hn as [(ch' & Hch' & Hafter) Hp]. injection Hch' as <-.
        rewrite Hafter, Hp, deliver_count. done.
      * destruct Hn as [-> ->]. by rewrite Nat.add_succ_r.
    + destruct Hn as [-> ->]. by rewrite Nat.add_succ_r.
  - intros c Hc. destruct (Hu c Hc) as [Hch Hp].
    unfold in_flight. by rewrite Hch, Hp.
Qed.

Lemma resume_eval (i : nat) (c : chan) (w : World) :
  goroutines w !! i = Some c ->
  resume i w =
  match chans w !! c with
  | Some ch =>
      if ready ch
      then set_goroutines (delete i (goroutines w))
             (set_chans (<[c := deliver settings_ref ch]> (chans w)) w)
      else w
  | None => w
  end.
Proof.
  intros Hi. unfold resume, chan_send. rewrite Hi.
  destruct (chans w !! c) as [ch|]; [|done]. by destruct (ready ch).
Qed.

(** X12: the goroutine that [apply] started for a subscriber delivers as
    soon as the subscriber can take the send: when it runs and the channel
    is ready, the store reference goes into the channel and the goroutine
    is gone; when the channel is not ready, it stays parked and nothing
    changes.  The store is not touched either way. *)
Theorem resume_delivers_when_ready (i : nat) (c : chan) (w : World) :
  goroutines w !! i = Some c ->
  (sendable w c = true ->
   (exists ch, chans w !! c = Some ch /\
               chans (resume i w) !! c = Some (deliver settings_ref ch)) /\
   S (pending c (resume i w)) = pending c w /\
   length (goroutines (resume i w)) = pred (length (goroutines w))) /\
  (sendable w c = false -> resume i w = w) /\
  store (resume i w) = store w.
Proof.
  intros Hi. rewrite (resume_eval i c w Hi). unfold sendable.
  destruct (chans w !! c) as [ch|] eqn:Ech; [|done].
  destruct (ready ch); [|done].
  split; [|done]. intros _. cbn. split; [|split].
  - exists ch. split; [done|]. apply lookup_insert_eq.
  - unfold pending. cbn. rewrite (count_occ_delete _ i c c Hi).
    rewrite decide_True by done.
    assert (0 < count_occ Nat.eq_dec (goroutines w) c).
    { apply count_occ_In, list_elem_of_In. by eapply list_elem_of_lookup_2. }
    unfold chan in *. lia.
  - rewrite length_delete by (by eexists). unfold chan in *. lia.
Qed.

(** X13: a goroutine of the fan-out neither loses nor doubles what it
    carries: whichever goroutine runs, in whatever state, the number of
    store references on their way to each subscriber is as before, and so
    are the store and the log. *)
Theorem resume_conserves (i : nat) (w : World) :
  (forall c, in_flight c (resume i w) = in_flight c w) /\
  store (resume i w) = store w /\
  log (resume i w) = log w.
Proof.
  destruct (goroutines w !! i) as [c|] eqn:Hi.
  2:{ unfold resume. by rewrite Hi. }
  rewrite (resume_eval i c w Hi).
  destruct (chans w !! c) as [ch|] eqn:Ech; [|done].
  destruct (ready ch); [|done].
  split; [|done]. intros c'. unfold in_flight, pending. cbn.
  rewrite (count_occ_delete _ i c c' Hi).
  destruct (decide (c' = c)) as [->|Hne].
  - rewrite lookup_insert_eq, Ech, deliver_count.
    assert (0 < count_occ Nat.eq_dec (goroutines w) c).
    { apply count_occ_In, list_elem_of_In. by eapply list_elem_of_lookup_2. }
    unfold chan in *. lia.
  - by rewrite lookup_insert_ne.
Qed.

(** ** Beyond the claims: set-up *)

Lemma loadSystemTheme_log_growth (w : World) :
  exists th es,
    loadSystemTheme w = Done th (set_log (log w ++ es) w) /\
    length es <= 1.
Proof.
  unfold loadSystemTheme, bind, fyne_LoadResourceFromPath, gets.
  destruct (files (host w) _) as [data [err|]].
  - destruct (os_IsNotExist err); cbn.
    + exists theme_DefaultTheme, []. rewrite app_nil_r, set_log_same.
      split; [done|cbn; lia].
    + eexists _, [_]. split; [reflexivity|cbn; lia].
  - destruct data as [[name [content|]]|].
    + destruct (theme_FromJSONReader content) as [th [err|]].
      * eexists _, [_]. split; [reflexivity|cbn; lia].
      * exists th, []. rewrite app_nil_r, set_log_same.
        split; [done|cbn; lia].
    + exists theme_DefaultTheme, []. rewrite app_nil_r, set_log_same.
      split; [done|cbn; lia].
    + exists theme_DefaultTheme, []. rewrite app_nil_r, set_log_same.
      split; [done|cbn; lia].
Qed.

Lemma loadSystemTheme_host (w1 w2 : World) :
  host w1 = host w2 ->
  exists th lg1 lg2,
    loadSystemTheme w1 = Done th (set_log lg1 w1) /\
    loadSystemTheme w2 = Done th (set_log lg2 w2).
Proof.
  intros Hh.
  unfold loadSystemTheme, bind, fyne_LoadResourceFromPath, gets.
  rewrite Hh.
  destruct (files (host w2) _) as [data [err|]].
  - destruct (os_IsNotExist err); cbn.
    + exists theme_DefaultTheme, (log w1), (log w2).
      by rewrite !set_log_same.
    + by eexists _, _, _.
  - destruct data as [[name [content|]]|].
    + destruct (theme_FromJSONReader content) as [th [err|]].
      * by eexists _, _, _.
      * exists th, (log w1), (log w2). by rewrite !set_log_same.
    + exists theme_DefaultTheme, (log w1), (log w2).
      by rewrite !set_log_same.
    + exists theme_DefaultTheme, (log w1), (log w2).
      by rewrite !set_log_same.
Qed.

(** X14: once a theme was set through the API, set-up does not look for
    the user's theme document: on a store whose override flag is up (and
    whose lock is free) [setupTheme] keeps the theme and logs nothing,
    whatever the document on disk is like; only the variant is resolved
    anew. *)
Theorem setupTheme_keeps_explicit_theme (w : World) :
  propertyLock (store w) = Unlocked ->
  themeSpecified (store w) = true ->
  exists w',
    setupTheme w = Done tt w' /\
    theme (store w') = theme (store w) /\
    themeSpecified (store w') = true /\
    log w' = log w /\
    variant (store w')
    = variant_of_name (candidate_name w) (defaultVariant (host w)).
Proof.
  intros Hl Hsp.
  destruct (setupTheme_spec w Hl) as (th & lg & w' & Hsrc & He & Hs & Hlg & _).
  rewrite Hsp in Hsrc. destruct Hsrc as [-> ->].
  exists w'. split; [exact He|]. rewrite Hs. cbn. by rewrite Hsp.
Qed.

(** X15: what [setupTheme] leaves alone: on a store whose lock is free it
    changes the theme and the variant only; the override flag, the
    schema, the listeners, the watcher and the host are as before, the
    lock is free again, and the log has grown by one entry at most. *)
Theorem setupTheme_frame (w : World) :
  propertyLock (store w) = Unlocked ->
  exists w' es,
    setupTheme w = Done tt w' /\
    themeSpecified (store w') = themeSpecified (store w) /\
    schema (store w') = schema (store w) /\
    changeListeners (store w') = changeListeners (store w) /\
    watcher (store w') = watcher (store w) /\
    propertyLock (store w') = Unlocked /\
    host w' = host w /\
    log w' = log w ++ es /\
    length es <= 1.
Proof.
  intros Hl.
  destruct (setupTheme_spec w Hl)
    as (th & lg & w' & Hsrc & He & Hs & Hlg & Hh & _).
  assert (exists es, lg = log w ++ es /\ length es <= 1) as (es & -> & Hes).
  { destruct (themeSpecified (store w)).
    - destruct Hsrc as [_ ->]. exists []. rewrite app_nil_r.
      split; [done|cbn; lia].
    - destruct (loadSystemTheme_log_growth w) as (th' & es & Hload & Hes).
      rewrite Hload in Hsrc. injection Hsrc as _ Hlog.
      exists es. by split. }
  exists w', es. split; [exact He|]. rewrite Hs. cbn. by rewrite Hl.
Qed.

(** X16: set-up can be repeated: with the host unchanged, a second
    [setupTheme] right after a first leaves the store exactly as the
    first left it (the listeners are notified a second time). *)
Theorem setupTheme_idempotent (w : World) :
  propertyLock (store w) = Unlocked ->
  exists w1 w2,
    setupTheme w = Done tt w1 /\
    setupTheme w1 = Done tt w2 /\
    store w2 = store w1 /\
    fanned_out w1 w2.
Proof.
  intros Hl.
  destruct (setupTheme_spec w Hl)
    as (th & lg & w1 & Hsrc & He & Hs & Hlg & Hh & _).
  assert (Hl1 : propertyLock (store w1) = Unlocked).
  { rewrite Hs. cbn. exact Hl. }
  destruct (setupTheme_spec w1 Hl1)
    as (th' & lg' & w2 & Hsrc' & He' & Hs' & _ & _ & Hf).
  exists w1, w2. split; [exact He|]. split; [exact He'|].
  split; [|exact Hf].
  assert (Hname : candidate_name w1 = candidate_name w).
  { unfold candidate_name. by rewrite Hh, Hs. }
  assert (Hth : th' = th).
  { assert (Hsp : themeSpecified (store w1) = themeSpecified (store w)).
    { by rewrite Hs. }
    rewrite Hsp in Hsrc'. destruct (themeSpecified (store w)).
    - destruct Hsrc' as [-> _]. by rewrite Hs.
    - destruct (loadSystemTheme_host w w1) as (t0 & l1 & l2 & H1 & H2);
        [done|].
      rewrite H1 in Hsrc. rewrite H2 in Hsrc'.
      injection Hsrc as <- _. by injection Hsrc' as <- _. }
  rewrite Hs', Hname, Hh, Hth, Hs. reflexivity.
Qed.

(** X17: a preview on top of an explicitly set theme is not undone by
    set-up: after [SetTheme T] and then [OverrideTheme P c], a
    [setupTheme] keeps [P], because the override flag raised by
    [SetTheme] makes it take whatever theme the store holds; [Theme]
    then returns [P], and [T] comes back only if the caller restores
    it. *)
Theorem preview_survives_setup_after_SetTheme
    (T P : fyne_Theme) (c : string) (w : World) :
  propertyLock (store w) = Unlocked ->
  exists w1 w2 w3,
    SetTheme T w = Done tt w1 /\
    OverrideTheme P c w1 = Done tt w2 /\
    setupTheme w2 = Done tt w3 /\
    theme (store w3) = P /\
    Theme store_ptr w3 = Done P w3.
Proof.
  intros Hl.
  destruct (SetTheme_spec T w Hl) as (w1 & He1 & Hs1 & _).
  assert (Hl1 : propertyLock (store w1) = Unlocked).
  { rewrite Hs1. cbn. exact Hl. }
  pose proof (OverrideTheme_eval P c w1 Hl1) as He2.
  match type of He2 with _ = Done tt ?x => set (w2 := x) in * end.
  assert (Hl2 : propertyLock (store w2) = Unlocked) by exact Hl1.
  destruct (setupTheme_spec w2 Hl2) as (th & lg & w3 & Hsrc & He3 & Hs3 & _).
  assert (Hsp : themeSpecified (store w2) = true).
  { subst w2. cbn. by rewrite Hs1. }
  rewrite Hsp in Hsrc. destruct Hsrc as [-> _].
  exists w1, w2, w3. repeat (split; [assumption|]).
  assert (Hth : theme (store w3) = P) by (by rewrite Hs3).
  split; [exact Hth|].
  rewrite Theme_eval; [by rewrite Hth|].
  rewrite Hs3. cbn. by rewrite Hl1.
Qed.

(** ** Beyond the claims: sequences of calls *)

Lemma store_kept_refl (s : settings) :
  propertyLock s = Unlocked -> store_kept s s.
Proof. intros Hl. unfold store_kept, same_but_color. by repeat split. Qed.

Lemma store_kept_trans (s1 s2 s3 : settings) :
  store_kept s1 s2 -> store_kept s2 s3 -> store_kept s1 s3.
Proof.
  intros (_ & Hf1 & Hc1 & Hw1 & Ht1 & Hs1 & Hn1 & Hg1 & Hd1)
         (Hl2 & Hf2 & Hc2 & Hw2 & Ht2 & Hs2 & Hn2 & Hg2 & Hd2).
  unfold store_kept, same_but_color.
  split; [exact Hl2|]. split; [auto|]. split; [auto|].
  split; [congruence|]. repeat split; congruence.
Qed.

Lemma resume_store (i : nat) (w : World) : store (resume i w) = store w.
Proof.
  unfold resume, chan_send.
  destruct (goroutines w !! i) as [c|]; [|done].
  destruct (chans w !! c) as [ch|]; [|done]. by destruct (ready ch).
Qed.

(** Closes [store_kept] between a store and a field update of it. *)
Ltac kept_by_update Hl :=
  match goal with
  | |- store_kept (store ?w) _ =>
      destruct (store w) as [? ? ? ? ? ? []]; cbn in *;
      unfold store_kept, same_but_color; cbn; subst;
      repeat split; auto
  end.

Lemma run_call_kept (c : call) (w : World) :
  propertyLock (store w) = Unlocked ->
  exists w', run_call c w = Done tt w' /\ store_kept (store w) (store w').
Proof.
  intros Hl.
  assert (Hr : propertyLock (store w) <> WLocked) by (by rewrite Hl).
  destruct c; cbn [run_call].
  - exists w. split; [done|by apply store_kept_refl].
  - exists w. unfold bind. rewrite PrimaryColor_eval by done.
    split; [done|by apply store_kept_refl].
  - eexists. split; [by apply OverrideTheme_eval|]. cbn.
    kept_by_update Hl.
  - destruct s.
    + eexists. split; [reflexivity|]. by apply store_kept_refl.
    + exists w. unfold bind. rewrite Theme_eval by done.
      split; [done|by apply store_kept_refl].
  - destruct (SetTheme_spec th w Hl) as (w' & He & Hs & _).
    exists w'. split; [exact He|]. rewrite Hs. kept_by_update Hl.
  - exists w. split; [done|by apply store_kept_refl].
  - exists w. split; [done|by apply store_kept_refl].
  - destruct (applyTheme_spec th v w Hl) as (w' & He & Hs & _).
    exists w'. split; [exact He|]. rewrite Hs. kept_by_update Hl.
  - destruct (applyVariant_spec v w Hl) as (w' & He & Hs & _).
    exists w'. split; [exact He|]. rewrite Hs. kept_by_update Hl.
  - exists w. unfold bind. rewrite Scale_eval by done.
    split; [done|by apply store_kept_refl].
  - eexists. split; [reflexivity|]. cbn.
    destruct (store w) as [? ? ? ? cl ? []]; cbn in *.
    unfold store_kept, same_but_color; cbn. repeat split; auto.
    intros c Hc. destruct (decide (listener = c)) as [->|Hne].
    + rewrite lookup_insert_eq. by eexists.
    + by rewrite lookup_insert_ne.
  - destruct (apply_fanned_out w) as (w' & He & Hs & _).
    exists w'. split; [exact He|]. rewrite Hs. by apply store_kept_refl.
  - destruct (loadSystemTheme_logs_only w) as (th & lg & He & _).
    exists (set_log lg w). unfold bind. rewrite He.
    split; [done|by apply store_kept_refl].
  - destruct (setupTheme_spec w Hl) as (th & lg & w' & _ & He & Hs & _).
    exists w'. split; [exact He|]. rewrite Hs. kept_by_update Hl.
Qed.

Lemma run_actions_kept (l : list action) (w : World) :
  propertyLock (store w) = Unlocked ->
  exists w', run_actions l w = Done tt w' /\ store_kept (store w) (store w').
Proof.
  revert w. induction l as [|a l IH]; intros w Hl; cbn [run_actions].
  - exists w. split; [done|by apply store_kept_refl].
  - assert (exists w1, run_action a w = Done tt w1 /\
                       store_kept (store w) (store w1))
      as (w1 & He & Hk).
    { destruct a as [c|i|h]; cbn [run_action].
      - by apply run_call_kept.
      - eexists. split; [reflexivity|]. rewrite resume_store.
        by apply store_kept_refl.
      - eexists. split; [reflexivity|]. by apply store_kept_refl. }
    destruct (IH w1) as (w' & He' & Hk'); [apply Hk|].
    exists w'. unfold bind. rewrite He. split; [exact He'|].
    by eapply store_kept_trans.
Qed.

(** X18: a goroutine that calls the methods one after the other never
    parks on the store's lock and never trips the runtime's fatal unlock:
    from a free lock, every sequence of calls, with goroutines of the
    fan-out running and the host changing in between, finishes, and the
    lock is free at the end.  In particular the fan-out, which runs
    inside the write lock, never asks for the lock again. *)
Theorem calls_never_deadlock (l : list action) (w : World) :
  propertyLock (store w) = Unlocked ->
  exists w',
    run_actions l w = Done tt w' /\
    propertyLock (store w') = Unlocked.
Proof.
  intros Hl. destruct (run_actions_kept l w Hl) as (w' & He & Hk).
  exists w'. split; [exact He|apply Hk].
Qed.

(** X19: no method lowers the override flag: once it is up it is up after
    every sequence of calls, so from then on no set-up replaces the theme
    by the system's. *)
Theorem override_flag_is_never_cleared (l : list action) (w : World) :
  propertyLock (store w) = Unlocked ->
  themeSpecified (store w) = true ->
  exists w',
    run_actions l w = Done tt w' /\
    themeSpecified (store w') = true.
Proof.
  intros Hl Hsp. destruct (run_actions_kept l w Hl) as (w' & He & Hk).
  exists w'. split; [exact He|]. by apply Hk.
Qed.

(** X20: a listener is never unregistered: a channel that is registered
    stays registered through every sequence of calls (the file has no way
    to remove one). *)
Theorem listener_is_never_dropped (c : chan) (l : list action) (w : World) :
  propertyLock (store w) = Unlocked ->
  is_Some (changeListeners (store w) !! c) ->
  exists w',
    run_actions l w = Done tt w' /\
    is_Some (changeListeners (store w') !! c).
Proof.
  intros Hl Hc. destruct (run_actions_kept l w Hl) as (w' & He & Hk).
  exists w'. split; [exact He|]. by apply Hk.
Qed.


End Store.

(** ** The statements at sample states *)

(** C1, as first stated, fails at a stored scale of zero: zero is
    [<= 0], yet [Scale] returns it as it is, not 1.0, and what the reader
    sees is not above zero. *)
Lemma Scale_of_zero_is_zero :
  SFleb (SettingsSchema.Scale
           (schema (store (@quiet_world nat string (schema_with_scale f32_0)))))
        f32_0 = true /\
  Scale (@quiet_world nat string (schema_with_scale f32_0))
  = Done f32_0 (quiet_world (schema_with_scale f32_0)) /\
  f32_0 <> f32_1 /\
  SFltb f32_0 f32_0 = false.
Proof. repeat split. discriminate. Qed.

Lemma Scale_coerces_negative_only_witness :
  exists r,
    Scale (@quiet_world nat string (schema_with_scale f32_m1))
    = Done r (quiet_world (schema_with_scale f32_m1)) /\
    r = f32_1.
Proof.
  destruct (Scale_coerces_negative_only
              (@quiet_world nat string (schema_with_scale f32_m1)))
    as (r & He & Hneg & _).
  - discriminate.
  - exists r. split; [exact He|]. apply Hneg. reflexivity.
Defined.

(** C2, as first stated, fails on the number of subscribers: with one
    registered channel the loop makes one channel operation, with two it
    makes two, from the same clock. *)
Lemma apply_time_grows_with_listeners :
  exists wa wb : @World nat string,
    apply (crowd 1) = Done tt wa /\
    apply (crowd 2) = Done tt wb /\
    ticks (@crowd nat string 1) = ticks (@crowd nat string 2) /\
    ticks wa = 1 /\ ticks wb = 2 /\
    goroutines wa = [0] /\ length (goroutines wb) = 2.
Proof.
  eexists _, _. split; [vm_compute; reflexivity|].
  split; [vm_compute; reflexivity|]. by vm_compute.
Qed.

(** No bound on the channel operations of one pass holds for every
    number of subscribers. *)
Lemma apply_time_has_no_uniform_bound :
  ~ exists bound, forall w w' : @World nat string,
      apply w = Done tt w' -> ticks w' <= ticks w + bound.
Proof.
  intros [bound Hb].
  destruct (apply_fanned_out (@crowd nat string (S bound)))
    as (w' & He & _ & _ & _ & Ht & _).
  specialize (Hb _ _ He). rewrite Ht in Hb.
  change (changeListeners (store (crowd (S bound))))
    with (gset_to_gmap true (set_seq 0 (S bound)) : gmap chan bool) in Hb.
  rewrite <- (size_dom (D:=gset nat)) in Hb.
  rewrite dom_gset_to_gmap, size_set_seq in Hb.
  change (ticks (crowd (S bound))) with 0 in Hb. lia.
Qed.

Lemma setupTheme_variant_witness :
  exists w',
    setupTheme sample_IsNotExist "/cfg" sample_Join sample_DefaultTheme
      sample_FromJSONReader sample_VariantLight sample_VariantDark
      (world_of
         (store_with (SettingsSchema.mk "light" f32_1 "" "" "" false))
         ∅ (host_with_FYNE_THEME "dark"))
    = Done tt w' /\
    variant (store w') = sample_VariantDark.
Proof.
  destruct (setupTheme_variant sample_IsNotExist "/cfg" sample_Join
              sample_DefaultTheme sample_FromJSONReader
              sample_VariantLight sample_VariantDark
              (world_of
                 (store_with (SettingsSchema.mk "light" f32_1 "" "" "" false))
                 ∅ (host_with_FYNE_THEME "dark")))
    as (name & w' & He & Henv & _ & _ & Hdark & _).
  - reflexivity.
  - exists w'. split; [exact He|].
    apply Hdark. apply (Henv "dark"); [reflexivity|discriminate].
Defined.

Lemma SetTheme_is_sticky_witness :
  exists w1,
    SetTheme (Some 7) (@quiet_world nat string SettingsSchema.zero)
    = Done tt w1 /\
    Theme store_ptr w1 = Done (Some 7) w1 /\
    exists w3,
      run_events sample_IsNotExist "/cfg" sample_Join sample_DefaultTheme
        sample_FromJSONReader sample_VariantLight sample_VariantDark
        [FileChanged; SetupAgain; FileChanged] w1
      = Done tt w3 /\
      Theme store_ptr w3 = Done (Some 7) w3.
Proof.
  destruct (SetTheme_is_sticky sample_IsNotExist "/cfg" sample_Join
              sample_DefaultTheme sample_FromJSONReader
              sample_VariantLight sample_VariantDark
              (Some 7) (@quiet_world nat string SettingsSchema.zero))
    as (w1 & He & Hth & _ & Hlater).
  - reflexivity.
  - exists w1. split; [exact He|]. split; [exact Hth|].
    destruct (Hlater [FileChanged; SetupAgain; FileChanged])
      as (w3 & Hes & _ & Hth3).
    exists w3. split; [exact Hes|exact Hth3].
Defined.

Lemma SetTheme_sets_flag_and_notifies_witness :
  exists w',
    SetTheme (Some 7) (@crowd nat string 2) = Done tt w' /\
    themeSpecified (store w') = true /\
    theme (store w') = Some 7 /\
    variant (store w') = variant (store (@crowd nat string 2)) /\
    fanned_out (crowd 2) w'.
Proof.
  destruct (SetTheme_sets_flag_and_notifies (Some 7) (@crowd nat string 2))
    as (w' & He & Hflag & Hth & Hv & _ & Hfan & _).
  - reflexivity.
  - exists w'. repeat (split; [assumption|]). exact Hfan.
Defined.

Lemma OverrideTheme_is_silent_witness :
  exists w',
    OverrideTheme (Some 5) "red" (@crowd nat string 2) = Done tt w' /\
    SettingsSchema.PrimaryColor (schema (store w')) = "red" /\
    theme (store w') = Some 5 /\
    chans w' = chans (@crowd nat string 2) /\
    goroutines w' = [] /\
    ticks w' = 0.
Proof.
  destruct (OverrideTheme_is_silent (Some 5) "red" (@crowd nat string 2))
    as (w' & He & Hc & Hth & Hch & Hg & Ht & _).
  - reflexivity.
  - exists w'. repeat (split; [assumption|]). exact Ht.
Defined.

Lemma OverrideTheme_frame_witness :
  exists w' sys w1 w2,
    OverrideTheme (Some 5) "red" (@quiet_world nat string SettingsSchema.zero)
    = Done tt w' /\
    themeSpecified (store w') = false /\
    loadSystemTheme sample_IsNotExist "/cfg" sample_Join sample_DefaultTheme
      sample_FromJSONReader w' = Done sys w1 /\
    setupTheme sample_IsNotExist "/cfg" sample_Join sample_DefaultTheme
      sample_FromJSONReader sample_VariantLight sample_VariantDark w'
    = Done tt w2 /\
    theme (store w2) = sys.
Proof.
  destruct (OverrideTheme_frame sample_IsNotExist "/cfg" sample_Join
              sample_DefaultTheme sample_FromJSONReader
              sample_VariantLight sample_VariantDark
              (Some 5) "red" (@quiet_world nat string SettingsSchema.zero))
    as (w' & He & Hflag & _ & _ & _ & _ & _ & _ & _ & _ & _ & _ & Hsetup).
  - reflexivity.
  - destruct Hsetup as (sys & w1 & w2 & Hload & Hs & Hth & _); [reflexivity|].
    exists w', sys, w1, w2. repeat (split; [assumption|]). exact Hth.
Defined.

(** ** The methods run on sample states *)

Example Scale_of_legacy_auto :
  Scale (@quiet_world nat string (schema_with_scale f32_m1))
  = Done f32_1 (quiet_world (schema_with_scale f32_m1)).
Proof. reflexivity. Qed.

Example Theme_of_nil_store :
  log <$> (match Theme nil_ptr (@quiet_world nat string SettingsSchema.zero)
           with Done None w => Some w | _ => None end)
  = Some [("Attempt to access current Fyne theme when no app is started",
           None)].
Proof. reflexivity. Qed.

Example preview_is_dropped_by_setup :
  match
    (OverrideTheme (Some 5) "red" ;;
     setupTheme sample_IsNotExist "/cfg" sample_Join sample_DefaultTheme
       sample_FromJSONReader sample_VariantLight sample_VariantDark)%go
      (@quiet_world nat string SettingsSchema.zero)
  with
  | Done _ w => Some (theme (store w),
                      SettingsSchema.PrimaryColor (schema (store w)))
  | _ => None
  end = Some (sample_DefaultTheme, "red").
Proof. vm_compute. reflexivity. Qed.

Example unreadable_theme_file :
  match
    loadSystemTheme sample_IsNotExist "/cfg" sample_Join sample_DefaultTheme
      sample_FromJSONReader
      (world_of (store_with SettingsSchema.zero) ∅
         (host_with_theme_file (None, Some "permission denied")))
  with
  | Done th w => Some (th, log w)
  | _ => None
  end
  = Some (sample_DefaultTheme,
          [("Failed to load user theme file: /cfg/theme.json",
            Some "permission denied")]).
Proof. vm_compute. reflexivity. Qed.

Example missing_theme_file :
  match
    loadSystemTheme sample_IsNotExist "/cfg" sample_Join sample_DefaultTheme
      sample_FromJSONReader
      (world_of (store_with SettingsSchema.zero) ∅
         (host_with_theme_file (None, Some "no such file or directory")))
  with
  | Done th w => Some (th, log w)
  | _ => None
  end
  = Some (sample_DefaultTheme, []).
Proof. vm_compute. reflexivity. Qed.

Example malformed_theme_file :
  match
    loadSystemTheme sample_IsNotExist "/cfg" sample_Join sample_DefaultTheme
      sample_FromJSONReader
      (world_of (store_with SettingsSchema.zero) ∅
         (host_with_theme_file
            (Some (mkResource "theme.json" (Some [])), None)))
  with
  | Done th w => Some (th, log w)
  | _ => None
  end
  = Some (sample_DefaultTheme,
          [("Failed to parse user theme file: /cfg/theme.json",
            Some "unexpected end of JSON input")]).
Proof. vm_compute. reflexivity. Qed.

Example SetTheme_under_a_held_lock_parks :
  match
    SetTheme (Some 7)
      (world_of (set_propertyLock WLocked (@zero_settings nat)) ∅
         (@bare_host string))
  with
  | Blocked _ => true
  | _ => false
  end = true.
Proof. reflexivity. Qed.

(** ** The further statements at sample states *)

Lemma new_listener_is_notified_witness :
  exists w',
    (AddChangeListener 3 ;; SetTheme (Some 7))%go
      (@world_of nat string zero_settings {[3 := undrained]} bare_host)
    = Done tt w' /\
    theme (store w') = Some 7 /\
    pending 3 w' = 1.
Proof.
  destruct (new_listener_is_notified 3 (Some 7)
              (@world_of nat string zero_settings {[3 := undrained]}
                 bare_host))
    as (w' & He & Hth & _ & Hn).
  - reflexivity.
  - exists w'. split; [exact He|]. split; [exact Hth|].
    unfold notified in Hn. apply Hn.
Defined.

Lemma applyVariant_sets_variant_only_witness :
  exists w',
    applyVariant sample_VariantLight (@crowd nat string 2) = Done tt w' /\
    ThemeVariant w' = Done sample_VariantLight w' /\
    theme (store w') = None.
Proof.
  destruct (applyVariant_sets_variant_only sample_VariantLight
              (@crowd nat string 2))
    as (w' & He & _ & Hth & _ & _ & _ & Hv).
  - reflexivity.
  - exists w'. split; [exact He|]. split; [exact Hv|exact Hth].
Defined.

Lemma OverrideTheme_read_back_witness :
  exists w',
    OverrideTheme (Some 5) "red" (@quiet_world nat string SettingsSchema.zero)
    = Done tt w' /\
    PrimaryColor w' = Done "red" w' /\
    Theme store_ptr w' = Done (Some 5) w'.
Proof.
  apply (OverrideTheme_read_back (Some 5) "red"
           (@quiet_world nat string SettingsSchema.zero)).
  reflexivity.
Defined.

Lemma OverrideTheme_revert_witness :
  exists w',
    OverrideTheme (Some 5) "red" (@quiet_world nat string SettingsSchema.zero)
    = Done tt w' /\
    OverrideTheme None "" w' = Done tt (quiet_world SettingsSchema.zero).
Proof.
  apply (OverrideTheme_revert (Some 5) "red"
           (@quiet_world nat string SettingsSchema.zero)).
  reflexivity.
Defined.

Lemma writers_park_on_a_taken_lock_witness :
  OverrideTheme (Some 5) "red" (@world_under_writer nat string)
  = Blocked world_under_writer /\
  exists w',
    SetTheme (Some 7) (@world_under_writer nat string) = Blocked w' /\
    themeSpecified (store w') = true /\
    theme (store w') = None.
Proof.
  destruct (writers_park_on_a_taken_lock (Some 5) "red" 0%N
              (@world_under_writer nat string)) as (Ho & _ & _ & _).
  - discriminate.
  - split; [exact Ho|].
    destruct (writers_park_on_a_taken_lock (Some 7) "" 0%N
                (@world_under_writer nat string)) as (_ & _ & _ & Hs).
    + discriminate.
    + eexists. split; [exact Hs|]. split; reflexivity.
Defined.

Lemma readers_under_a_writer_witness :
  Theme store_ptr (@world_under_writer nat string)
  = Blocked world_under_writer /\
  ThemeVariant (@world_under_writer nat string) = Done 0%N world_under_writer.
Proof.
  destruct (readers_under_a_writer false (@world_under_writer nat string))
    as (Ht & _ & _ & Hv & _).
  - reflexivity.
  - split; [exact Ht|exact Hv].
Defined.

Lemma apply_without_listeners_witness :
  apply (@quiet_world nat string SettingsSchema.zero)
  = Done tt (quiet_world SettingsSchema.zero).
Proof.
  apply (apply_without_listeners (@quiet_world nat string SettingsSchema.zero)).
  reflexivity.
Defined.

Lemma undrained_listener_collects_goroutines_witness :
  exists w',
    apply_times 3 (@one_listener nat string 4 0) = Done tt w' /\
    pending 4 w' = 3.
Proof.
  destruct (undrained_listener_collects_goroutines 4 3
              (@one_listener nat string 4 0)) as (w' & He & Hp & _).
  - exists true. reflexivity.
  - reflexivity.
  - exists w'. split; [exact He|exact Hp].
Defined.

Lemma apply_keeps_buffers_within_capacity_witness :
  exists w',
    apply (@one_listener nat string 4 1) = Done tt w' /\
    buffers_within_capacity w'.
Proof.
  destruct (apply_keeps_buffers_within_capacity
              (@one_listener nat string 4 1)) as (w' & He & Hok & _).
  - intros c ch Hc. cbn in Hc.
    apply lookup_singleton_Some in Hc as [_ <-]. cbn. lia.
  - exists w'. split; [exact He|exact Hok].
Defined.

Lemma resume_delivers_when_ready_witness :
  exists ch,
    chans (resume 0 (@sender_meets_receiver nat string 4)) !! 4 = Some ch /\
    received ch = [settings_ref] /\
    goroutines (resume 0 (@sender_meets_receiver nat string 4)) = [].
Proof.
  destruct (resume_delivers_when_ready 0 4
              (@sender_meets_receiver nat string 4)) as (Hready & _ & _).
  - reflexivity.
  - destruct Hready as ((ch & Hch & Hafter) & _ & _); [reflexivity|].
    exists (deliver settings_ref ch). split; [exact Hafter|].
    cbn in Hch. apply lookup_singleton_Some in Hch as [_ <-].
    split; reflexivity.
Defined.

Lemma setupTheme_keeps_explicit_theme_witness :
  exists w',
    setupTheme sample_IsNotExist "/cfg" sample_Join sample_DefaultTheme
      sample_FromJSONReader sample_VariantLight sample_VariantDark
      (world_of (set_theme (Some 7) (set_themeSpecified true zero_settings))
         ∅ (host_with_theme_file (None, Some "permission denied")))
    = Done tt w' /\
    theme (store w') = Some 7 /\
    log w' = [].
Proof.
  destruct (setupTheme_keeps_explicit_theme sample_IsNotExist "/cfg"
              sample_Join sample_DefaultTheme sample_FromJSONReader
              sample_VariantLight sample_VariantDark
              (world_of
                 (set_theme (Some 7) (set_themeSpecified true zero_settings))
                 ∅ (host_with_theme_file (None, Some "permission denied"))))
    as (w' & He & Hth & _ & Hlog & _).
  - reflexivity.
  - reflexivity.
  - exists w'. split; [exact He|]. split; [exact Hth|exact Hlog].
Defined.

Lemma setupTheme_frame_witness :
  exists w' es,
    setupTheme sample_IsNotExist "/cfg" sample_Join sample_DefaultTheme
      sample_FromJSONReader sample_VariantLight sample_VariantDark
      (world_of zero_settings ∅
         (host_with_theme_file (None, Some "permission denied")))
    = Done tt w' /\
    themeSpecified (store w') = false /\
    schema (store w') = SettingsSchema.zero /\
    log w' = es /\ length es <= 1.
Proof.
  destruct (setupTheme_frame sample_IsNotExist "/cfg" sample_Join
              sample_DefaultTheme sample_FromJSONReader
              sample_VariantLight sample_VariantDark
              (world_of zero_settings ∅
                 (host_with_theme_file (None, Some "permission denied"))))
    as (w' & es & He & Hsp & Hsc & _ & _ & _ & _ & Hlog & Hes).
  - reflexivity.
  - exists w', es. split; [exact He|]. split; [exact Hsp|].
    split; [exact Hsc|]. split; [exact Hlog|exact Hes].
Defined.

Lemma setupTheme_idempotent_witness :
  exists w1 w2,
    setupTheme sample_IsNotExist "/cfg" sample_Join sample_DefaultTheme
      sample_FromJSONReader sample_VariantLight sample_VariantDark
      (world_of
         (store_with (SettingsSchema.mk "light" f32_1 "" "" "" false))
         ∅ (host_with_FYNE_THEME "dark"))
    = Done tt w1 /\
    setupTheme sample_IsNotExist "/cfg" sample_Join sample_DefaultTheme
      sample_FromJSONReader sample_VariantLight sample_VariantDark w1
    = Done tt w2 /\
    store w2 = store w1.
Proof.
  destruct (setupTheme_idempotent sample_IsNotExist "/cfg" sample_Join
              sample_DefaultTheme sample_FromJSONReader
              sample_VariantLight sample_VariantDark
              (world_of
                 (store_with (SettingsSchema.mk "light" f32_1 "" "" "" false))
                 ∅ (host_with_FYNE_THEME "dark")))
    as (w1 & w2 & He1 & He2 & Hs & _).
  - reflexivity.
  - exists w1, w2. split; [exact He1|]. split; [exact He2|exact Hs].
Defined.

Lemma preview_survives_setup_after_SetTheme_witness :
  exists w1 w2 w3,
    SetTheme (Some 7) (@quiet_world nat string SettingsSchema.zero)
    = Done tt w1 /\
    OverrideTheme (Some 5) "red" w1 = Done tt w2 /\
    setupTheme sample_IsNotExist "/cfg" sample_Join sample_DefaultTheme
      sample_FromJSONReader sample_VariantLight sample_VariantDark w2
    = Done tt w3 /\
    Theme store_ptr w3 = Done (Some 5) w3.
Proof.
  destruct (preview_survives_setup_after_SetTheme sample_IsNotExist "/cfg"
              sample_Join sample_DefaultTheme sample_FromJSONReader
              sample_VariantLight sample_VariantDark
              (Some 7) (Some 5) "red"
              (@quiet_world nat string SettingsSchema.zero))
    as (w1 & w2 & w3 & He1 & He2 & He3 & _ & Hth).
  - reflexivity.
  - exists w1, w2, w3. repeat (split; [assumption|]). exact Hth.
Defined.

Lemma calls_never_deadlock_witness :
  exists w',
    run_actions sample_IsNotExist "/cfg" sample_Join sample_DefaultTheme
      sample_FromJSONReader sample_VariantLight sample_VariantDark 0 false
      [Calls (CallAddChangeListener 1); Calls (CallSetTheme (Some 7));
       Calls CallSetupTheme; GoroutineRuns 0; Calls CallScale;
       Calls (CallOverrideTheme (Some 5) "red"); Calls CallApply]
      (@quiet_world nat string SettingsSchema.zero)
    = Done tt w' /\
    propertyLock (store w') = Unlocked.
Proof.
  apply (calls_never_deadlock sample_IsNotExist "/cfg" sample_Join
           sample_DefaultTheme sample_FromJSONReader
           sample_VariantLight sample_VariantDark 0 false).
  reflexivity.
Defined.

Lemma override_flag_is_never_cleared_witness :
  exists w',
    run_actions sample_IsNotExist "/cfg" sample_Join sample_DefaultTheme
      sample_FromJSONReader sample_VariantLight sample_VariantDark 0 false
      [Calls CallSetupTheme; Calls (CallOverrideTheme (Some 5) "red");
       Calls (CallApplyTheme None 0%N); Calls CallSetupTheme]
      (world_of (set_themeSpecified true (@zero_settings nat)) ∅
         (@bare_host string))
    = Done tt w' /\
    themeSpecified (store w') = true.
Proof.
  apply (override_flag_is_never_cleared sample_IsNotExist "/cfg" sample_Join
           sample_DefaultTheme sample_FromJSONReader
           sample_VariantLight sample_VariantDark 0 false);
    reflexivity.
Defined.

Lemma listener_is_never_dropped_witness :
  exists w',
    run_actions sample_IsNotExist "/cfg" sample_Join sample_DefaultTheme
      sample_FromJSONReader sample_VariantLight sample_VariantDark 0 false
      [Calls (CallSetTheme (Some 7)); Calls (CallAddChangeListener 9);
       Calls CallSetupTheme; GoroutineRuns 0]
      (@one_listener nat string 4 0)
    = Done tt w' /\
    is_Some (changeListeners (store w') !! 4).
Proof.
  apply (listener_is_never_dropped sample_IsNotExist "/cfg" sample_Join
           sample_DefaultTheme sample_FromJSONReader
           sample_VariantLight sample_VariantDark 0 false).
  - reflexivity.
  - exists true. reflexivity.
Defined.

